(** * WebPlatform: the browser platform adapter of riot-web

    A shallow embedding of [src/vector/platform/WebPlatform.js].

    The adapter is a thin layer over external collaborators (the favicon
    badge renderer, the console, the action dispatcher, the HTTP request
    helper, the Notification API, timers).  Every call into a collaborator
    is an [effect]; a method of the class is a program over these effects
    that threads the instance fields and a completion (normal or thrown).
    Programs are run against an arbitrary host, which answers each call,
    and the run records the calls with their answers. *)

From Stdlib Require Import ZArith List String Ascii Bool Lia.
Import ListNotations.

Open Scope Z_scope.
Open Scope string_scope.

(** ** JavaScript values used by the adapter *)

Module JS.

(** Flow's [number].  Notification counts are integral; [NaN] is kept
    because it is the one number that [===] does not relate to itself
    and that is falsy besides zero. *)
Inductive number : Type :=
| Num (z : Z)
| NaN.

(** [a === b] on numbers. *)
Definition strict_eq (a b : number) : bool :=
  match a, b with
  | Num x, Num y => Z.eqb x y
  | _, _ => false
  end.

(** [Boolean(n)]: zero and [NaN] are falsy. *)
Definition truthy (n : number) : bool :=
  match n with
  | Num z => negb (Z.eqb z 0)
  | NaN => false
  end.

(** An [Error] object, as the badge library throws it or as [request]
    hands it to its callback. *)
Record Error : Type := mkError { message : string }.

(** Code units that [String.prototype.trim] strips, among the 8-bit
    ones: TAB, LF, VT, FF, CR, SPACE and NBSP. *)
Definition is_white (c : ascii) : bool :=
  let n := N_of_ascii c in
  (((9 <=? n) && (n <=? 13)) || (n =? 32) || (n =? 160))%N.

Fixpoint trim_start (s : string) : string :=
  match s with
  | String c s' => if is_white c then trim_start s' else s
  | EmptyString => EmptyString
  end.

(** Drops trailing white space: a character is kept when it is not white
    or when something is kept after it. *)
Fixpoint trim_end (s : string) : string :=
  match s with
  | String c s' =>
      match trim_end s' with
      | EmptyString => if is_white c then EmptyString else String c EmptyString
      | r => String c r
      end
  | EmptyString => EmptyString
  end.

(** [s.trim()] *)
Definition trim (s : string) : string := trim_end (trim_start s).

(** White space only; white space first; white space last. *)
Fixpoint all_white (s : string) : bool :=
  match s with
  | String c s' => is_white c && all_white s'
  | EmptyString => true
  end.

Definition starts_white (s : string) : bool :=
  match s with
  | String c _ => is_white c
  | EmptyString => false
  end.

Fixpoint ends_white (s : string) : bool :=
  match s with
  | String c EmptyString => is_white c
  | String _ s' => ends_white s'
  | EmptyString => false
  end.

End JS.

Export JS.

(** ** Data exchanged with the collaborators *)

(** First argument of [favicon.badge]: the count, or the glyph that
    [notif || "×"] puts in its place. *)
Inductive BadgeContent : Type :=
| BadgeNumber (n : number)
| BadgeText (s : string).

(** Second argument of [favicon.badge]. *)
Record BadgeOptions : Type := mkBadgeOptions { bgColor : string }.

(** The multiplication sign U+00D7, one code unit. *)
Definition times_glyph : string := String (ascii_of_N 215) EmptyString.

(** Payloads handed to [dis.dispatch]. *)
Inductive Action : Type :=
| view_room (room_id : string)
| new_version (currentVersion newVersion : string).

Inductive Method : Type := GET | POST.

(** Options object of [request]. *)
Record RequestOptions : Type := mkRequestOptions {
  method : Method;
  url : string;
  qs : list (string * Z)
}.

Record Response : Type := mkResponse { status : Z }.

(** Arguments [(err, response, body)] with which [request] calls back. *)
Record Reply : Type := mkReply {
  err : option Error;
  response : Response;
  body : string
}.

(** What the promise of [_getVersion] is rejected with: the transport
    error, or [{ status: response.status }]. *)
Inductive Rejection : Type :=
| TransportError (e : Error)
| StatusError (status : Z).

(** A settled promise. *)
Inductive Settled (A : Type) : Type :=
| Fulfilled (v : A)
| Rejected (reason : Rejection).
Arguments Fulfilled {A} v.
Arguments Rejected {A} reason.

(** Options object of [new Notification]. *)
Record NotificationOptions : Type := mkNotificationOptions {
  opt_body : string;
  icon : string;
  tag : string;
  silent : bool
}.

(** A created notification object. *)
Definition NotificationRef : Type := nat.

Record Room : Type := mkRoom { roomId : string }.

(** The two closures that [displayNotification] hands to the host, by
    name with what they close over. *)
Inductive Callback : Type :=
| OnClick (room : Room) (notification : NotificationRef)
| OnTimeout (notification : NotificationRef).

(** ** Calls into the collaborators *)

Inductive effect : Type -> Type :=
| FaviconBadge (notif : BadgeContent) (opts : BadgeOptions) : effect (option Error)
    (* [this.favicon.badge(notif, opts)]; answers [Some e] when it throws [e] *)
| ConsoleWarn (msg : string) : effect unit
| ConsoleError (msg : string) (reason : Rejection) : effect unit
| DisDispatch (payload : Action) : effect unit
| DateNow : effect Z
| Request (opts : RequestOptions) : effect Reply
    (* [request(opts, callback)]; the answer is what the callback receives *)
| NewNotification (title : string) (opts : NotificationOptions) : effect NotificationRef
| SetOnclick (notification : NotificationRef) (handler : Callback) : effect unit
| NotificationClose (notification : NotificationRef) : effect unit
| GlobalFocus : effect unit
| SetTimeout (handler : Callback) (ms : Z) : effect unit.

(** A program: a tree of calls, each continued on its answer. *)
Inductive prog (A : Type) : Type :=
| Ret (a : A)
| Vis {X : Type} (e : effect X) (k : X -> prog A).
Arguments Ret {A} a.
Arguments Vis {A X} e k.

Fixpoint pbind {A B : Type} (p : prog A) (f : A -> prog B) : prog B :=
  match p with
  | Ret a => f a
  | Vis e k => Vis e (fun x => pbind (k x) f)
  end.

(** A call together with the answer the host gave. *)
Inductive event : Type :=
| Ev {X : Type} (e : effect X) (answer : X).

(** A host answers every call, from a state of its own. *)
Definition host (H : Type) : Type := forall X : Type, effect X -> H -> X * H.

Fixpoint run {H A : Type} (h : host H) (p : prog A) (w : H) : A * list event * H :=
  match p with
  | Ret a => (a, [], w)
  | Vis e k =>
      let (x, w1) := h _ e w in
      let '(a, t, w2) := run h (k x) w1 in
      (a, Ev e x :: t, w2)
  end.

(** ** The instance and the method monad *)

(** Fields of a [WebPlatform] instance.  [notificationCount] and
    [errorDidOccur] are inherited; [runningVersion] is [null] ([None])
    until a poll has stored a version. *)
Record WebPlatform : Type := mkWebPlatform {
  notificationCount : number;
  errorDidOccur : bool;
  runningVersion : option string
}.

(** How a method body completes. *)
Inductive completion (A : Type) : Type :=
| Normal (a : A)
| Throw (e : Error).
Arguments Normal {A} a.
Arguments Throw {A} e.

(** A method body: from the fields of [this] to a program that yields a
    completion and the fields afterwards.  A method that returns a promise
    is the program that runs until the promise settles and yields how it
    settled. *)
Definition M (A : Type) : Type := WebPlatform -> prog (completion A * WebPlatform).

Definition ret {A : Type} (a : A) : M A := fun this => Ret (Normal a, this).

Definition bind {A B : Type} (m : M A) (f : A -> M B) : M B :=
  fun this =>
    pbind (m this) (fun r =>
      match fst r with
      | Normal a => f a (snd r)
      | Throw e => Ret (Throw e, snd r)
      end).

Declare Scope method_scope.
Delimit Scope method_scope with method.
Notation "x <- m ;; k" := (bind m (fun x => k))
  (at level 61, m at next level, right associativity) : method_scope.
Notation "m ;; k" := (bind m (fun _ => k))
  (at level 61, right associativity) : method_scope.
Open Scope method_scope.

(** A call that does not throw. *)
Definition call {X : Type} (e : effect X) : M X :=
  fun this => Vis e (fun x => Ret (Normal x, this)).

(** A call that throws when the host answers with an error. *)
Definition call_throwing (e : effect (option Error)) : M unit :=
  fun this =>
    Vis e (fun x =>
      match x with
      | None => Ret (Normal tt, this)
      | Some ex => Ret (Throw ex, this)
      end).

(** [try { m } catch (e) { handler e }] *)
Definition try_catch {A : Type} (m : M A) (handler : Error -> M A) : M A :=
  fun this =>
    pbind (m this) (fun r =>
      match fst r with
      | Normal a => Ret (Normal a, snd r)
      | Throw e => handler e (snd r)
      end).

Definition get_this : M WebPlatform := fun this => Ret (Normal this, this).

Definition set_runningVersion (ver : string) : M unit :=
  fun this =>
    Ret (Normal tt,
         {| notificationCount := notificationCount this;
            errorDidOccur := errorDidOccur this;
            runningVersion := Some ver |}).

(** ** The base class *)

(** Modelled from the spec: [BasePlatform.setNotificationCount], reached
    through [super], is not in the source tree; it stores [count] in
    [notificationCount]. *)
Definition super_setNotificationCount (count : number) : M unit :=
  fun this =>
    Ret (Normal tt,
         {| notificationCount := count;
            errorDidOccur := errorDidOccur this;
            runningVersion := runningVersion this |}).

(** Modelled from the spec: [BasePlatform.setErrorStatus], reached through
    [super], is not in the source tree; it stores the flag in
    [errorDidOccur]. *)
Definition super_setErrorStatus (flag : bool) : M unit :=
  fun this =>
    Ret (Normal tt,
         {| notificationCount := notificationCount this;
            errorDidOccur := flag;
            runningVersion := runningVersion this |}).

(** ** Methods of [WebPlatform] *)

(** [notif || "×"] *)
Definition or_glyph (notif : number) : BadgeContent :=
  if truthy notif then BadgeNumber notif else BadgeText times_glyph.

Definition _updateFavicon : M unit :=
  try_catch
    (this <- get_this ;;
     let bgColor := "#d00" in
     let notif := BadgeNumber (notificationCount this) in
     let (notif, bgColor) :=
       if errorDidOccur this
       then (or_glyph (notificationCount this), "#f00")
       else (notif, bgColor) in
     call_throwing (FaviconBadge notif {| bgColor := bgColor |}))
    (fun e => call (ConsoleWarn ("Failed to set badge count: " ++ message e))).

Definition setNotificationCount (count : number) : M unit :=
  this <- get_this ;;
  if strict_eq (notificationCount this) count then ret tt
  else
    super_setNotificationCount count ;;
    _updateFavicon.

Definition setErrorStatus (flag : bool) : M unit :=
  this <- get_this ;;
  if Bool.eqb (errorDidOccur this) flag then ret tt
  else
    super_setErrorStatus flag ;;
    _updateFavicon.

(** The constructor, run on the fields the base constructor has set: it
    clears [runningVersion] and renders the badge once.  Creating the
    [Favico] object, which the instance keeps for its badge calls, is not
    a call of its own here. *)
Definition constructor : M unit :=
  fun this =>
    _updateFavicon
      {| notificationCount := notificationCount this;
         errorDidOccur := errorDidOccur this;
         runningVersion := None |}.

Definition displayNotification (title msg avatarUrl : string) (room : Room) : M unit :=
  notification <-
    call (NewNotification title
            {| opt_body := msg; icon := avatarUrl; tag := "vector"; silent := true |}) ;;
  call (SetOnclick notification (OnClick room notification)) ;;
  call (SetTimeout (OnTimeout notification) (5 * 1000)).

(** The bodies of the two closures of [displayNotification]. *)
Definition invoke (cb : Callback) : M unit :=
  match cb with
  | OnClick room notification =>
      call (DisDispatch (view_room (roomId room))) ;;
      call GlobalFocus ;;
      call (NotificationClose notification)
  | OnTimeout notification =>
      call (NotificationClose notification)
  end.

Definition version_request (now : Z) : RequestOptions :=
  {| method := GET; url := "version"; qs := [("cachebuster", now)] |}.

(** [err || response.status < 200 || response.status >= 300]; an error
    object is truthy. *)
Definition failed (r : Reply) : bool :=
  match err r with Some _ => true | None => false end
  || (status (response r) <? 200)%Z
  || (status (response r) >=? 300)%Z.

(** What the deferred is rejected with:
    [if (err == null) err = { status: response.status }]. *)
Definition rejection (r : Reply) : Rejection :=
  match err r with
  | None => StatusError (status (response r))
  | Some e => TransportError e
  end.

(** The callback of [request] in [_getVersion]: how it settles the
    deferred. *)
Definition settle (r : Reply) : Settled string :=
  if failed r then Rejected (rejection r)
  else Fulfilled (trim (body r)).

Definition _getVersion : M (Settled string) :=
  now <- call DateNow ;;
  r <- call (Request (version_request now)) ;;
  ret (settle r).

Definition getAppVersion : M (Settled string) :=
  this <- get_this ;;
  match runningVersion this with
  | Some v => ret (Fulfilled v)
  | None => _getVersion
  end.

(** The two handlers that [pollForUpdate] passes to [done]. *)
Definition poll_fulfilled (ver : string) : M unit :=
  this <- get_this ;;
  match runningVersion this with
  | None => set_runningVersion ver
  | Some current =>
      if negb (String.eqb current ver)
      then call (DisDispatch (new_version current ver))
      else ret tt
  end.

Definition poll_rejected (reason : Rejection) : M unit :=
  call (ConsoleError "Failed to poll for update" reason).

Definition pollForUpdate : M unit :=
  p <- _getVersion ;;
  match p with
  | Fulfilled ver => poll_fulfilled ver
  | Rejected reason => poll_rejected reason
  end.

(** ** The global object *)

Record Location : Type := mkLocation { protocol : string }.
Record Window : Type := mkWindow { location : Location }.

(** [global]: [window] is [None] where the global object has no
    [window] property. *)
Record Global : Type := mkGlobal { window : option Window }.

Definition https_required : string :=
  "You need to be using HTTPS to place a screen-sharing call.".

Definition screenCaptureErrorString (global : Global) : option string :=
  match window global with
  | None => Some https_required
  | Some w =>
      if negb (String.eqb (protocol (location w)) "https:")
      then Some https_required
      else None
  end.

(** Where the code runs: the scheme it was served over, and whether the
    global object exposes a [window] (a page does, a worker or a
    server-side run does not).  A window reports the scheme as the
    protocol of its location. *)
Record Environment : Type := mkEnvironment {
  transport : string;
  has_window : bool
}.

Definition global_of (env : Environment) : Global :=
  {| window :=
       if has_window env
       then Some {| location := {| protocol := transport env |} |}
       else None |}.

(** ** Observing a run *)

Section Observations.

Context {H A : Type}.

(** Running a method on the fields [this] against host [h] in state [w]. *)
Definition exec (h : host H) (m : M A) (this : WebPlatform) (w : H)
  : completion A * WebPlatform * list event * H :=
  run h (m this) w.

Definition outcome (r : completion A * WebPlatform * list event * H) : completion A :=
  fst (fst (fst r)).
Definition fields (r : completion A * WebPlatform * list event * H) : WebPlatform :=
  snd (fst (fst r)).
Definition trace (r : completion A * WebPlatform * list event * H) : list event :=
  snd (fst r).
Definition host_state (r : completion A * WebPlatform * list event * H) : H :=
  snd r.

End Observations.

(** The arguments of the [favicon.badge] calls of a trace: one per render
    step. *)
Fixpoint badges (t : list event) : list (BadgeContent * BadgeOptions) :=
  match t with
  | [] => []
  | Ev e _ :: t' =>
      match e with
      | FaviconBadge notif opts => (notif, opts) :: badges t'
      | _ => badges t'
      end
  end.

(** What the badge renderer threw during a trace. *)
Fixpoint thrown (t : list event) : list Error :=
  match t with
  | [] => []
  | Ev e a :: t' =>
      match e in effect X return X -> list Error with
      | FaviconBadge _ _ => fun a =>
          match a with
          | Some ex => ex :: thrown t'
          | None => thrown t'
          end
      | _ => fun _ => thrown t'
      end a
  end.

(** The warnings logged during a trace. *)
Fixpoint warnings (t : list event) : list string :=
  match t with
  | [] => []
  | Ev e _ :: t' =>
      match e with
      | ConsoleWarn msg => msg :: warnings t'
      | _ => warnings t'
      end
  end.

(** The actions dispatched during a trace. *)
Fixpoint dispatched (t : list event) : list Action :=
  match t with
  | [] => []
  | Ev e _ :: t' =>
      match e with
      | DisDispatch payload => payload :: dispatched t'
      | _ => dispatched t'
      end
  end.

(** What was logged with [console.error] during a trace. *)
Fixpoint errors_logged (t : list event) : list (string * Rejection) :=
  match t with
  | [] => []
  | Ev e _ :: t' =>
      match e with
      | ConsoleError msg reason => (msg, reason) :: errors_logged t'
      | _ => errors_logged t'
      end
  end.

(** The requests issued during a trace. *)
Fixpoint requests (t : list event) : list RequestOptions :=
  match t with
  | [] => []
  | Ev e _ :: t' =>
      match e with
      | Request opts => opts :: requests t'
      | _ => requests t'
      end
  end.

(** The replies the requests of a trace received. *)
Fixpoint replies (t : list event) : list Reply :=
  match t with
  | [] => []
  | Ev e a :: t' =>
      match e in effect X return X -> list Reply with
      | Request _ => fun r => r :: replies t'
      | _ => fun _ => replies t'
      end a
  end.

(** [n] polls in a row, as the timer of the application makes them. *)
Fixpoint polls (n : nat) : M unit :=
  match n with
  | O => ret tt
  | S n' => pollForUpdate ;; polls n'
  end.

(** ** A scripted host

    A concrete host for examples: the badge renderer and the request
    helper answer from lists, the clock is fixed, notifications are
    numbered in order. *)

Record Script : Type := mkScript {
  badge_answers : list (option Error);
  clock : Z;
  request_answers : list Reply;
  next_notification : nat
}.

Definition no_reply : Reply :=
  {| err := Some {| message := "no reply" |};
     response := {| status := 0 |};
     body := "" |}.

Definition scripted : host Script :=
  fun X e =>
    match e in effect X return Script -> X * Script with
    | FaviconBadge _ _ => fun w =>
        match badge_answers w with
        | [] => (None, w)
        | a :: rest =>
            (a, {| badge_answers := rest; clock := clock w;
                   request_answers := request_answers w;
                   next_notification := next_notification w |})
        end
    | DateNow => fun w => (clock w, w)
    | Request _ => fun w =>
        match request_answers w with
        | [] => (no_reply, w)
        | r :: rest =>
            (r, {| badge_answers := badge_answers w; clock := clock w;
                   request_answers := rest;
                   next_notification := next_notification w |})
        end
    | NewNotification _ _ => fun w =>
        (next_notification w,
         {| badge_answers := badge_answers w; clock := clock w;
            request_answers := request_answers w;
            next_notification := S (next_notification w) |})
    | ConsoleWarn _ | ConsoleError _ _ | DisDispatch _
    | SetOnclick _ _ | NotificationClose _ | GlobalFocus | SetTimeout _ _ =>
        fun w => (tt, w)
    end.

(** A reply with status 200 and the given body. *)
Definition ok (text : string) : Reply :=
  {| err := None; response := {| status := 200 |}; body := text |}.

(** An instance that has not been used yet: no unread messages, no error,
    no stored version. *)
Definition fresh : WebPlatform :=
  {| notificationCount := Num 0; errorDidOccur := false; runningVersion := None |}.

Definition idle : Script :=
  {| badge_answers := []; clock := 1478000000000;
     request_answers := []; next_notification := 0 |}.

(** Two consecutive [setNotificationCount (NaN)] calls on a fresh
    instance. *)
Definition nan_first :=
  exec scripted (setNotificationCount NaN) fresh idle.
Definition nan_second :=
  exec scripted (setNotificationCount NaN) (fields nan_first) (host_state nan_first).

(** A host whose renderer throws on the first badge call. *)
Definition overloaded : Script :=
  {| badge_answers := [Some {| message := "Too many badges requests in queue." |}];
     clock := 1478000000000; request_answers := []; next_notification := 0 |}.

(** An environment served over https whose global object has no window. *)
Definition secure_worker : Environment :=
  {| transport := "https:"; has_window := false |}.
Definition secure_page : Environment :=
  {| transport := "https:"; has_window := true |}.

(** The host of the scenario of the specification: three polls that fetch
    "1.2.3", "1.2.4" and "1.2.3" again. *)
Definition scenario : Script :=
  {| badge_answers := []; clock := 1478000000000;
     request_answers := [ok "1.2.3"; ok "1.2.4"; ok "1.2.3"];
     next_notification := 0 |}.

(** A host whose version endpoint answers 503. *)
Definition unavailable : Script :=
  {| badge_answers := []; clock := 1478000000000;
     request_answers :=
       [{| err := None; response := {| status := 503 |}; body := "" |}];
     next_notification := 0 |}.

(** Splits a conjunction of facts about a finished run and settles each
    by computation, dropping the cases of the other branch. *)
Ltac solve_parts :=
  repeat split; try reflexivity; try discriminate;
  try (intros _; repeat split; reflexivity).

(** ** Sequences of calls and further observers *)

(** A call of one of the two badge setters. *)
Inductive BadgeOp : Type :=
| SetCount (count : number)
| SetError (flag : bool).

Definition apply_op (op : BadgeOp) : M unit :=
  match op with
  | SetCount count => setNotificationCount count
  | SetError flag => setErrorStatus flag
  end.

(** The setter calls of a list, one after the other. *)
Fixpoint apply_all (ops : list BadgeOp) : M unit :=
  match ops with
  | [] => ret tt
  | op :: rest => apply_op op ;; apply_all rest
  end.

(** The arguments of one [displayNotification] call. *)
Record Shown : Type := mkShown {
  shown_title : string;
  shown_msg : string;
  shown_avatarUrl : string;
  shown_room : Room
}.

(** The [displayNotification] calls of a list, one after the other. *)
Fixpoint display_all (l : list Shown) : M unit :=
  match l with
  | [] => ret tt
  | n :: rest =>
      displayNotification (shown_title n) (shown_msg n) (shown_avatarUrl n)
        (shown_room n) ;;
      display_all rest
  end.

(** The notifications created during a trace, with the options they were
    created with. *)
Fixpoint created (t : list event) : list (NotificationRef * NotificationOptions) :=
  match t with
  | [] => []
  | Ev e a :: t' =>
      match e in effect X return X -> list (NotificationRef * NotificationOptions) with
      | NewNotification _ opts => fun n => (n, opts) :: created t'
      | _ => fun _ => created t'
      end a
  end.

(** The click handlers installed during a trace, with the notification
    each was installed on. *)
Fixpoint onclicks (t : list event) : list (NotificationRef * Callback) :=
  match t with
  | [] => []
  | Ev e _ :: t' =>
      match e with
      | SetOnclick n handler => (n, handler) :: onclicks t'
      | _ => onclicks t'
      end
  end.

(** The timers set during a trace. *)
Fixpoint timeouts (t : list event) : list (Callback * Z) :=
  match t with
  | [] => []
  | Ev e _ :: t' =>
      match e with
      | SetTimeout handler ms => (handler, ms) :: timeouts t'
      | _ => timeouts t'
      end
  end.

(** The notifications closed during a trace. *)
Fixpoint closed (t : list event) : list NotificationRef :=
  match t with
  | [] => []
  | Ev e _ :: t' =>
      match e with
      | NotificationClose n => n :: closed t'
      | _ => closed t'
      end
  end.

(** ** Notification support

    [supportsNotifications] and [maySendNotifications] read
    [global.Notification], which is absent ([None]) where the browser has
    no Notification API. *)

Record NotificationClass : Type := mkNotificationClass { permission : string }.

Record NotificationGlobal : Type := mkNotificationGlobal {
  Notification : option NotificationClass
}.

(** [Boolean(global.Notification)]: a constructor is truthy, [undefined]
    is not. *)
Definition supportsNotifications (global : NotificationGlobal) : bool :=
  match Notification global with
  | Some _ => true
  | None => false
  end.

(** [global.Notification.permission == 'granted']; reading [permission]
    of [undefined] throws a TypeError, which is [None] here. *)
Definition maySendNotifications (global : NotificationGlobal) : option bool :=
  match Notification global with
  | Some api => Some (String.eqb (permission api) "granted")
  | None => None
  end.

(** A host that answers one version and then another, and one that fails
    before it answers. *)
Definition upgraded : Script :=
  {| badge_answers := []; clock := 1478000000000;
     request_answers := [ok "1.2.3"; ok "1.2.4"];
     next_notification := 0 |}.

Definition flaky : Script :=
  {| badge_answers := []; clock := 1478000000000;
     request_answers :=
       [{| err := None; response := {| status := 503 |}; body := "" |};
        ok "1.2.3"; ok "1.2.4"];
     next_notification := 0 |}.

(** A host whose version endpoint answers a blank body. *)
Definition blank : Script :=
  {| badge_answers := []; clock := 1478000000000;
     request_answers := [ok "  "; ok "1.2.3"];
     next_notification := 0 |}.

(** An instance that runs version "1.2.3", and a host whose version
    endpoint answers that version between white space. *)
Definition running : WebPlatform :=
  {| notificationCount := Num 0; errorDidOccur := false;
     runningVersion := Some "1.2.3" |}.

Definition padded : Script :=
  {| badge_answers := []; clock := 1478000000000;
     request_answers := [ok "  1.2.3 "];
     next_notification := 0 |}.

(** The times read from the clock during a trace. *)
Fixpoint times (t : list event) : list Z :=
  match t with
  | [] => []
  | Ev e a :: t' =>
      match e in effect X return X -> list Z with
      | DateNow => fun now => now :: times t'
      | _ => fun _ => times t'
      end a
  end.

(** A host that hands out notifications 0, 1, ... and two notifications to
    show. *)
Definition two_shown : list Shown :=
  [ {| shown_title := "Alice"; shown_msg := "hi"; shown_avatarUrl := "a.png";
       shown_room := {| roomId := "!one:example.org" |} |};
    {| shown_title := "Bob"; shown_msg := "yo"; shown_avatarUrl := "b.png";
       shown_room := {| roomId := "!two:example.org" |} |} ].

(** * Properties *)

(** ** Running programs *)

Section Running.

Context {H : Type} (h : host H).

Lemma run_pbind {A B : Type} (p : prog A) (f : A -> prog B) (w : H) :
  run h (pbind p f) w =
  let '(a, t, w1) := run h p w in
  let '(b, t', w2) := run h (f a) w1 in
  (b, (t ++ t')%list, w2).
Proof.
  revert w. induction p as [a | X e k IH]; intros w; simpl.
  - destruct (run h (f a) w) as [[b t'] w2]. reflexivity.
  - destruct (h X e w) as [x w1]. rewrite IH.
    destruct (run h (k x) w1) as [[a t] w2].
    destruct (run h (f a) w2) as [[b t'] w3]. reflexivity.
Qed.

(** A sequence runs its second part from where the first stopped,
    unless the first threw. *)
Lemma exec_bind {A B : Type} (m : M A) (f : A -> M B) (this : WebPlatform) (w : H) :
  exec h (bind m f) this w =
  let r := exec h m this w in
  match outcome r with
  | Normal a =>
      let r' := exec h (f a) (fields r) (host_state r) in
      (outcome r', fields r', (trace r ++ trace r')%list, host_state r')
  | Throw e => (Throw e, fields r, trace r, host_state r)
  end.
Proof.
  unfold exec, bind, outcome, fields, trace, host_state.
  rewrite run_pbind.
  destruct (run h (m this) w) as [[[c this1] t] w1]. simpl.
  destruct c as [a | e]; simpl.
  - destruct (run h (f a this1) w1) as [[[c' this2] t'] w2]. reflexivity.
  - rewrite app_nil_r. reflexivity.
Qed.

Lemma outcome_of {A : Type} (c : completion A) this (t : list event) (w : H) :
  outcome (c, this, t, w) = c.
Proof. reflexivity. Qed.

Lemma fields_of {A : Type} (c : completion A) this (t : list event) (w : H) :
  fields (c, this, t, w) = this.
Proof. reflexivity. Qed.

Lemma trace_of {A : Type} (c : completion A) this (t : list event) (w : H) :
  trace (c, this, t, w) = t.
Proof. reflexivity. Qed.

Lemma exec_ret {A : Type} (a : A) (this : WebPlatform) (w : H) :
  exec h (ret a) this w = (Normal a, this, [], w).
Proof. reflexivity. Qed.

End Running.

(** ** The badge *)

Section Badge.

Context {H : Type} (h : host H).

(** The render step makes one [favicon.badge] call; when that throws
    [e] it logs one warning; either way it completes normally and
    leaves the fields alone. *)
Lemma updateFavicon_cases (this : WebPlatform) (w : H) :
  let badge :=
    FaviconBadge
      (if errorDidOccur this then or_glyph (notificationCount this)
       else BadgeNumber (notificationCount this))
      {| bgColor := if errorDidOccur this then "#f00" else "#d00" |} in
  exec h _updateFavicon this w =
  match fst (h _ badge w) with
  | None => (Normal tt, this, [Ev badge None], snd (h _ badge w))
  | Some e =>
      let warn := ConsoleWarn ("Failed to set badge count: " ++ message e) in
      (Normal tt, this, [Ev badge (Some e); Ev warn tt],
       snd (h _ warn (snd (h _ badge w))))
  end.
Proof.
  cbv zeta.
  unfold exec, _updateFavicon, try_catch, bind, get_this, call_throwing, call.
  destruct this as [count [|] version]; simpl;
    match goal with
    | |- context [h _ ?b w] => destruct (h _ b w) as [[e|] w1]
    end; simpl; try reflexivity;
    match goal with
    | |- context [h _ (ConsoleWarn ?m) ?w'] =>
        destruct (h _ (ConsoleWarn m) w') as [[] w2]
    end; reflexivity.
Qed.

Lemma updateFavicon_outcome (this : WebPlatform) (w : H) :
  outcome (exec h _updateFavicon this w) = Normal tt
  /\ fields (exec h _updateFavicon this w) = this.
Proof.
  rewrite updateFavicon_cases. cbv zeta.
  match goal with |- context [fst ?x] => destruct (fst x) end; split; reflexivity.
Qed.

Lemma updateFavicon_badges (this : WebPlatform) (w : H) :
  badges (trace (exec h _updateFavicon this w)) =
  [(if errorDidOccur this then or_glyph (notificationCount this)
    else BadgeNumber (notificationCount this),
    {| bgColor := if errorDidOccur this then "#f00" else "#d00" |})].
Proof.
  rewrite updateFavicon_cases. cbv zeta.
  match goal with |- context [fst ?x] => destruct (fst x) end; reflexivity.
Qed.

Lemma updateFavicon_warnings (this : WebPlatform) (w : H) :
  warnings (trace (exec h _updateFavicon this w)) =
  map (fun e => "Failed to set badge count: " ++ message e)
      (thrown (trace (exec h _updateFavicon this w))).
Proof.
  rewrite updateFavicon_cases. cbv zeta.
  match goal with |- context [fst ?x] => destruct (fst x) end; reflexivity.
Qed.

(** What [setNotificationCount] runs when the count differs. *)
Lemma setNotificationCount_changed (count : number) (this : WebPlatform) (w : H) :
  strict_eq (notificationCount this) count = false ->
  exec h (setNotificationCount count) this w =
  exec h _updateFavicon
    {| notificationCount := count;
       errorDidOccur := errorDidOccur this;
       runningVersion := runningVersion this |} w.
Proof.
  intros Hne. unfold setNotificationCount.
  rewrite exec_bind. unfold get_this at 1. unfold exec at 1. simpl.
  rewrite Hne. rewrite exec_bind.
  unfold super_setNotificationCount at 1. unfold exec at 1. simpl.
  unfold outcome, fields, trace, host_state.
  destruct (exec h _updateFavicon _ w) as [[[c t1] t] w1]. reflexivity.
Qed.

Lemma setNotificationCount_same (count : number) (this : WebPlatform) (w : H) :
  strict_eq (notificationCount this) count = true ->
  exec h (setNotificationCount count) this w = (Normal tt, this, [], w).
Proof.
  intros Heq. unfold exec, setNotificationCount, bind, get_this. simpl.
  rewrite Heq. reflexivity.
Qed.

Lemma setErrorStatus_changed (flag : bool) (this : WebPlatform) (w : H) :
  errorDidOccur this <> flag ->
  exec h (setErrorStatus flag) this w =
  exec h _updateFavicon
    {| notificationCount := notificationCount this;
       errorDidOccur := flag;
       runningVersion := runningVersion this |} w.
Proof.
  intros Hne. unfold setErrorStatus.
  rewrite exec_bind. unfold get_this at 1. unfold exec at 1. simpl.
  replace (Bool.eqb (errorDidOccur this) flag) with false
    by (symmetry; apply Bool.eqb_false_iff; exact Hne).
  rewrite exec_bind.
  unfold super_setErrorStatus at 1. unfold exec at 1. simpl.
  unfold outcome, fields, trace, host_state.
  destruct (exec h _updateFavicon _ w) as [[[c t1] t] w1]. reflexivity.
Qed.

Lemma setErrorStatus_same (flag : bool) (this : WebPlatform) (w : H) :
  errorDidOccur this = flag ->
  exec h (setErrorStatus flag) this w = (Normal tt, this, [], w).
Proof.
  intros Heq. unfold exec, setErrorStatus, bind, get_this. simpl.
  rewrite Heq, Bool.eqb_reflx. reflexivity.
Qed.

(** A new instance has no stored version and has rendered its badge
    once. *)
Lemma constructor_run (this : WebPlatform) (w : H) :
  outcome (exec h constructor this w) = Normal tt
  /\ runningVersion (fields (exec h constructor this w)) = None
  /\ List.length (badges (trace (exec h constructor this w))) = 1%nat.
Proof.
  assert (Hrun : exec h constructor this w =
                 exec h _updateFavicon
                   {| notificationCount := notificationCount this;
                      errorDidOccur := errorDidOccur this;
                      runningVersion := None |} w) by reflexivity.
  rewrite Hrun.
  split; [ apply updateFavicon_outcome | ]. split.
  - rewrite (proj2 (updateFavicon_outcome _ w)). reflexivity.
  - rewrite updateFavicon_badges. reflexivity.
Qed.

End Badge.

(** C3.  With a count [n >= 0] and error flag [e], the render step makes
    exactly one badge call: under [e] it shows the glyph [times_glyph]
    when [n] is zero and the count [n] otherwise, on "#f00"; without [e]
    it shows the count [n] itself on "#d00". *)
Theorem badge_render_rule :
  forall (H : Type) (h : host H) (w : H) (n : N) (e : bool) (version : option string),
    badges (trace (exec h _updateFavicon
                     {| notificationCount := Num (Z.of_N n);
                        errorDidOccur := e;
                        runningVersion := version |} w)) =
    [ if e
      then (if (n =? 0)%N then BadgeText times_glyph
            else BadgeNumber (Num (Z.of_N n)),
            {| bgColor := "#f00" |})
      else (BadgeNumber (Num (Z.of_N n)), {| bgColor := "#d00" |}) ].
Proof.
  intros H h w n e version.
  rewrite updateFavicon_badges. simpl.
  destruct e; [ | reflexivity ].
  unfold or_glyph, truthy.
  destruct n as [ | p ]; reflexivity.
Qed.

(** C2, as stated, fails: [NaN === NaN] is false, so a second
    [setNotificationCount (NaN)] right after the first stores and renders
    again. *)
Lemma setNotificationCount_NaN_renders_twice :
  notificationCount (fields nan_first) = NaN
  /\ List.length (badges (trace nan_first)) = 1%nat
  /\ badges (trace nan_second) = [(BadgeNumber NaN, {| bgColor := "#d00" |})]
  /\ trace nan_second <> [].
Proof.
  repeat split; try reflexivity. discriminate.
Qed.

(** C2 (amended).  In every state and for every value: a setter called
    with a value strictly equal to the stored one writes nothing and
    calls nothing; called with another value it stores the value and
    renders exactly once.  Hence a second call in a row with the same
    value renders nothing, for every flag and for every count that is
    strictly equal to itself (every number but [NaN]). *)
Theorem setters_render_only_on_change :
  forall (H : Type) (h : host H) (w : H) (this : WebPlatform),
    (forall count : number,
        let r := exec h (setNotificationCount count) this w in
        (strict_eq (notificationCount this) count = true ->
         r = (Normal tt, this, [], w))
        /\ (strict_eq (notificationCount this) count = false ->
            outcome r = Normal tt
            /\ fields r = {| notificationCount := count;
                             errorDidOccur := errorDidOccur this;
                             runningVersion := runningVersion this |}
            /\ List.length (badges (trace r)) = 1%nat)
        /\ (strict_eq count count = true ->
            exec h (setNotificationCount count) (fields r) (host_state r)
            = (Normal tt, fields r, [], host_state r)))
    /\ (forall flag : bool,
           let r := exec h (setErrorStatus flag) this w in
           (errorDidOccur this = flag ->
            r = (Normal tt, this, [], w))
           /\ (errorDidOccur this <> flag ->
               outcome r = Normal tt
               /\ fields r = {| notificationCount := notificationCount this;
                                errorDidOccur := flag;
                                runningVersion := runningVersion this |}
               /\ List.length (badges (trace r)) = 1%nat)
           /\ exec h (setErrorStatus flag) (fields r) (host_state r)
              = (Normal tt, fields r, [], host_state r)).
Proof.
  intros H h w this. split.
  - intros count r. subst r. repeat split.
    + apply setNotificationCount_same.
    + rewrite setNotificationCount_changed by assumption.
      apply updateFavicon_outcome.
    + rewrite setNotificationCount_changed by assumption.
      apply updateFavicon_outcome.
    + rewrite setNotificationCount_changed by assumption.
      rewrite updateFavicon_badges. reflexivity.
    + intros Hrefl. apply setNotificationCount_same.
      destruct (strict_eq (notificationCount this) count) eqn:Hcmp.
      * rewrite setNotificationCount_same by assumption. exact Hcmp.
      * rewrite setNotificationCount_changed by assumption.
        rewrite (proj2 (updateFavicon_outcome h _ w)). exact Hrefl.
  - intros flag r. subst r. repeat split.
    + apply setErrorStatus_same.
    + rewrite setErrorStatus_changed by assumption.
      apply updateFavicon_outcome.
    + rewrite setErrorStatus_changed by assumption.
      apply updateFavicon_outcome.
    + rewrite setErrorStatus_changed by assumption.
      rewrite updateFavicon_badges. reflexivity.
    + apply setErrorStatus_same.
      destruct (Bool.bool_dec (errorDidOccur this) flag) as [Heq | Hne].
      * rewrite setErrorStatus_same by assumption. exact Heq.
      * rewrite setErrorStatus_changed by assumption.
        rewrite (proj2 (updateFavicon_outcome h _ w)). reflexivity.
Qed.

Lemma setters_render_only_on_change_witness :
  strict_eq (Num 3) (Num 3) = true
  /\ exec scripted (setNotificationCount (Num 3))
       (fields (exec scripted (setNotificationCount (Num 3)) fresh idle))
       (host_state (exec scripted (setNotificationCount (Num 3)) fresh idle))
     = (Normal tt,
        fields (exec scripted (setNotificationCount (Num 3)) fresh idle),
        [],
        host_state (exec scripted (setNotificationCount (Num 3)) fresh idle)).
Proof.
  split; [ reflexivity | ].
  apply (proj1 (setters_render_only_on_change Script scripted idle fresh) (Num 3)).
  reflexivity.
Defined.

(** C9.  Neither setter ever completes by throwing.  When the badge
    renderer throws [e] during the call, the new count or flag is in the
    fields all the same, the badge call made was the one for the new
    fields, and the one thing logged is the warning with [e]'s message. *)
Theorem badge_failure_is_caught :
  forall (H : Type) (h : host H) (w : H) (this : WebPlatform),
    (forall count : number,
        let r := exec h (setNotificationCount count) this w in
        let written := {| notificationCount := count;
                          errorDidOccur := errorDidOccur this;
                          runningVersion := runningVersion this |} in
        outcome r = Normal tt
        /\ (forall e : Error, In e (thrown (trace r)) ->
              fields r = written
              /\ badges (trace r) = badges (trace (exec h _updateFavicon written w))
              /\ thrown (trace r) = [e]
              /\ warnings (trace r) = ["Failed to set badge count: " ++ message e]))
    /\ (forall flag : bool,
           let r := exec h (setErrorStatus flag) this w in
           let written := {| notificationCount := notificationCount this;
                             errorDidOccur := flag;
                             runningVersion := runningVersion this |} in
           outcome r = Normal tt
           /\ (forall e : Error, In e (thrown (trace r)) ->
                 fields r = written
                 /\ badges (trace r) = badges (trace (exec h _updateFavicon written w))
                 /\ thrown (trace r) = [e]
                 /\ warnings (trace r) = ["Failed to set badge count: " ++ message e])).
Proof.
  intros H h w this. split.
  - intros count r written. subst r.
    destruct (strict_eq (notificationCount this) count) eqn:Hcmp.
    + rewrite setNotificationCount_same by assumption.
      split; [ reflexivity | intros e [] ].
    + rewrite setNotificationCount_changed by assumption. fold written.
      split; [ apply updateFavicon_outcome | ].
      intros e He.
      split; [ apply updateFavicon_outcome | ].
      split; [ reflexivity | ].
      rewrite updateFavicon_warnings.
      revert He. rewrite updateFavicon_cases. cbv zeta.
      match goal with |- context [fst ?x] => destruct (fst x) as [e' | ] end;
        simpl; intros He; [ | contradiction ].
      destruct He as [-> | []]. split; reflexivity.
  - intros flag r written. subst r.
    destruct (Bool.bool_dec (errorDidOccur this) flag) as [Heq | Hne].
    + rewrite setErrorStatus_same by assumption.
      split; [ reflexivity | intros e [] ].
    + rewrite setErrorStatus_changed by assumption. fold written.
      split; [ apply updateFavicon_outcome | ].
      intros e He.
      split; [ apply updateFavicon_outcome | ].
      split; [ reflexivity | ].
      rewrite updateFavicon_warnings.
      revert He. rewrite updateFavicon_cases. cbv zeta.
      match goal with |- context [fst ?x] => destruct (fst x) as [e' | ] end;
        simpl; intros He; [ | contradiction ].
      destruct He as [-> | []]. split; reflexivity.
Qed.

Lemma badge_failure_is_caught_witness :
  In {| message := "Too many badges requests in queue." |}
     (thrown (trace (exec scripted (setNotificationCount (Num 7)) fresh overloaded)))
  /\ fields (exec scripted (setNotificationCount (Num 7)) fresh overloaded)
     = {| notificationCount := Num 7; errorDidOccur := false; runningVersion := None |}
  /\ warnings (trace (exec scripted (setNotificationCount (Num 7)) fresh overloaded))
     = ["Failed to set badge count: Too many badges requests in queue."].
Proof.
  assert (Hin : In {| message := "Too many badges requests in queue." |}
                  (thrown (trace (exec scripted (setNotificationCount (Num 7))
                                    fresh overloaded))))
    by (left; reflexivity).
  split; [ exact Hin | ].
  pose proof (proj2 (proj1 (badge_failure_is_caught Script scripted overloaded fresh)
                       (Num 7)) _ Hin) as (Hf & _ & _ & Hw).
  split; [ exact Hf | exact Hw ].
Defined.

(** ** Trimming *)

Lemma trim_start_spec (s : string) :
  exists l : string,
    s = l ++ trim_start s
    /\ all_white l = true
    /\ starts_white (trim_start s) = false.
Proof.
  induction s as [ | c s' (l & Hs & Hl & Hfirst) ].
  - exists "". repeat split; reflexivity.
  - simpl. destruct (is_white c) eqn:Hc.
    + exists (String c l). simpl. rewrite Hc, Hl, <- Hs.
      repeat split; try reflexivity. exact Hfirst.
    + exists "". simpl. rewrite Hc. repeat split; reflexivity.
Qed.

Lemma trim_end_spec (s : string) :
  exists r : string,
    s = trim_end s ++ r
    /\ all_white r = true
    /\ ends_white (trim_end s) = false.
Proof.
  induction s as [ | c s' (r & Hs & Hr & Hlast) ].
  - exists "". repeat split; reflexivity.
  - simpl. destruct (trim_end s') as [ | c' kept ] eqn:Hkept.
    + simpl in Hs. subst s'. destruct (is_white c) eqn:Hc.
      * exists (String c r). simpl. rewrite Hc, Hr. repeat split; reflexivity.
      * exists r. simpl. rewrite Hc. repeat split; try reflexivity. exact Hr.
    + exists r. simpl. rewrite Hs at 1. repeat split; try reflexivity.
      * exact Hr.
      * exact Hlast.
Qed.

Lemma trim_end_keeps_start (s : string) :
  starts_white s = false -> starts_white (trim_end s) = false.
Proof.
  destruct s as [ | c s' ]; simpl; [ reflexivity | ].
  intros Hc. destruct (trim_end s'); simpl; rewrite ?Hc; simpl; auto.
Qed.

(** [trim s] is [s] without a white prefix and a white suffix, and has
    white space at neither end. *)
Lemma trim_spec (s : string) :
  exists l r : string,
    s = l ++ trim s ++ r
    /\ all_white l = true
    /\ all_white r = true
    /\ starts_white (trim s) = false
    /\ ends_white (trim s) = false.
Proof.
  destruct (trim_start_spec s) as (l & Hs & Hl & Hfirst).
  destruct (trim_end_spec (trim_start s)) as (r & Hs' & Hr & Hlast).
  exists l, r. unfold trim. rewrite <- Hs', <- Hs.
  repeat split; try assumption.
  apply trim_end_keeps_start. exact Hfirst.
Qed.

(** ** The version capability *)

(** A reply fails exactly on a transport error or a status outside
    200..299. *)
Lemma failed_false_iff (rep : Reply) :
  failed rep = false <-> err rep = None /\ 200 <= status (response rep) < 300.
Proof.
  unfold failed. destruct (err rep) as [e | ]; simpl.
  - split; [ discriminate | intros [Habs _]; discriminate ].
  - rewrite Bool.orb_false_iff, Z.ltb_ge, Z.geb_leb, Z.leb_gt.
    split; [ intros [? ?] | intros [_ [? ?]] ]; repeat split; assumption.
Qed.

Section Version.

Context {H : Type} (h : host H).

(** One fetch: read the clock, issue the request, settle on the reply. *)
Lemma getVersion_run (this : WebPlatform) (w : H) :
  let now := fst (h _ DateNow w) in
  let w1 := snd (h _ DateNow w) in
  let rep := fst (h _ (Request (version_request now)) w1) in
  exec h _getVersion this w =
  (Normal (settle rep), this,
   [Ev DateNow now; Ev (Request (version_request now)) rep],
   snd (h _ (Request (version_request now)) w1)).
Proof.
  cbv zeta. unfold exec, _getVersion, bind, call, ret. simpl.
  destruct (h Z DateNow w) as [now w1]. simpl.
  destruct (h Reply (Request (version_request now)) w1) as [rep w2].
  reflexivity.
Qed.

(** A poll is a fetch followed by one of the two handlers. *)
Lemma pollForUpdate_run (this : WebPlatform) (w : H) :
  let rep := fst (h _ (Request (version_request (fst (h _ DateNow w))))
                    (snd (h _ DateNow w))) in
  let r := exec h pollForUpdate this w in
  replies (trace r) = [rep]
  /\ outcome r = Normal tt
  /\ notificationCount (fields r) = notificationCount this
  /\ errorDidOccur (fields r) = errorDidOccur this
  /\ (failed rep = true ->
      fields r = this
      /\ dispatched (trace r) = []
      /\ errors_logged (trace r) = [("Failed to poll for update", rejection rep)])
  /\ (failed rep = false ->
      errors_logged (trace r) = []
      /\ match runningVersion this with
         | None =>
             runningVersion (fields r) = Some (trim (body rep))
             /\ dispatched (trace r) = []
         | Some current =>
             fields r = this
             /\ dispatched (trace r) =
                if String.eqb current (trim (body rep)) then []
                else [new_version current (trim (body rep))]
         end).
Proof.
  cbv zeta.
  unfold exec, pollForUpdate, _getVersion, bind, call, ret. simpl.
  destruct (h Z DateNow w) as [now w1]. simpl.
  destruct (h Reply (Request (version_request now)) w1) as [rep w2]. simpl.
  unfold settle. destruct (failed rep) eqn:Hfailed; simpl.
  - unfold poll_rejected, call. simpl.
    destruct (h unit _ w2) as [[] w3]. solve_parts.
  - unfold poll_fulfilled, bind, get_this, set_runningVersion, ret, call. simpl.
    destruct (runningVersion this) as [current | ] eqn:Hversion.
    + destruct (String.eqb current (trim (body rep))) eqn:Hcmp; simpl.
      * solve_parts.
      * destruct (h unit _ w2) as [[] w3]. solve_parts.
    + solve_parts.
Qed.

End Version.

Lemma replies_app (t t' : list event) :
  replies (t ++ t') = (replies t ++ replies t')%list.
Proof.
  induction t as [ | [X e a] t IH ]; simpl; [ reflexivity | ].
  destruct e; simpl; rewrite IH; reflexivity.
Qed.

Lemma dispatched_app (t t' : list event) :
  dispatched (t ++ t') = (dispatched t ++ dispatched t')%list.
Proof.
  induction t as [ | [X e a] t IH ]; simpl; [ reflexivity | ].
  destruct e; simpl; rewrite IH; reflexivity.
Qed.

(** C5.  The version fetch reads the clock and issues one request, a GET
    of "version" with the query parameter [cachebuster] set to the time
    read.  Its promise is fulfilled with the trimmed body exactly when the
    reply carries no error and a status from 200 to 299, and is rejected
    otherwise: with the transport error, or with the status when there is
    no error. *)
Theorem getVersion_fetches_and_settles :
  forall (H : Type) (h : host H) (w : H) (this : WebPlatform),
    let now := fst (h _ DateNow w) in
    let request :=
      Request {| method := GET; url := "version"; qs := [("cachebuster", now)] |} in
    let rep := fst (h _ request (snd (h _ DateNow w))) in
    let r := exec h _getVersion this w in
    trace r = [Ev DateNow now; Ev request rep]
    /\ fields r = this
    /\ (outcome r = Normal (Fulfilled (trim (body rep)))
        <-> err rep = None /\ 200 <= status (response rep) < 300)
    /\ (outcome r =
        Normal (Rejected match err rep with
                         | Some e => TransportError e
                         | None => StatusError (status (response rep))
                         end)
        <-> ~ (err rep = None /\ 200 <= status (response rep) < 300)).
Proof.
  intros H h w this now request rep r.
  subst r. rewrite getVersion_run. cbv zeta.
  fold now. unfold version_request. fold request. fold rep.
  unfold outcome, fields, trace. simpl.
  split; [ reflexivity | ]. split; [ reflexivity | ].
  rewrite <- failed_false_iff. unfold settle, rejection.
  destruct (failed rep); split; split;
    try discriminate; try reflexivity; try congruence;
    destruct (err rep); discriminate.
Qed.

(** C4.  With a stored version, [getAppVersion] yields a promise
    fulfilled with it and calls nothing.  Without one, it reads the clock
    and issues exactly one request, and its promise settles as that fetch
    does.  In both cases the fields are as before. *)
Theorem getAppVersion_cached_or_fetched :
  forall (H : Type) (h : host H) (w : H) (this : WebPlatform),
    let r := exec h getAppVersion this w in
    fields r = this
    /\ match runningVersion this with
       | Some version =>
           outcome r = Normal (Fulfilled version)
           /\ trace r = []
           /\ host_state r = w
       | None =>
           r = exec h _getVersion this w
           /\ List.length (requests (trace r)) = 1%nat
           /\ replies (trace r) =
              [fst (h _ (Request (version_request (fst (h _ DateNow w))))
                      (snd (h _ DateNow w)))]
           /\ outcome r =
              Normal (settle (fst (h _ (Request (version_request (fst (h _ DateNow w))))
                                     (snd (h _ DateNow w)))))
       end.
Proof.
  intros H h w this r. subst r.
  assert (Hrun : exec h getAppVersion this w =
                 match runningVersion this with
                 | Some version => (Normal (Fulfilled version), this, [], w)
                 | None => exec h _getVersion this w
                 end).
  { unfold exec, getAppVersion, bind, get_this. simpl.
    destruct (runningVersion this) as [version | ]; reflexivity. }
  rewrite Hrun. destruct (runningVersion this) as [version | ].
  - repeat split; reflexivity.
  - rewrite getVersion_run. repeat split; reflexivity.
Qed.

(** C6.  When the fetch of a poll fails (a transport error, or a status
    outside 200..299), [pollForUpdate] completes normally, logs the
    failure with [console.error], dispatches nothing and leaves the fields
    as they were; [getAppVersion] without a stored version, against the
    same host, yields a promise rejected with that failure. *)
Theorem fetch_failure_logged_by_poll_surfaced_by_getAppVersion :
  forall (H : Type) (h : host H) (w : H) (this : WebPlatform) (rep : Reply),
    replies (trace (exec h pollForUpdate this w)) = [rep] ->
    err rep <> None \/ ~ (200 <= status (response rep) < 300) ->
    let r := exec h pollForUpdate this w in
    let g := exec h getAppVersion this w in
    outcome r = Normal tt
    /\ fields r = this
    /\ dispatched (trace r) = []
    /\ errors_logged (trace r) = [("Failed to poll for update", rejection rep)]
    /\ (runningVersion this = None ->
        replies (trace g) = [rep]
        /\ outcome g = Normal (Rejected (rejection rep))
        /\ errors_logged (trace g) = []
        /\ fields g = this).
Proof.
  intros H h w this rep Hrep Hfail r g.
  assert (Hfailed : failed rep = true).
  { destruct (failed rep) eqn:Hf; [ reflexivity | ].
    apply failed_false_iff in Hf. destruct Hf as [Herr Hstatus].
    destruct Hfail as [Hne | Hout]; [ contradiction | ].
    exfalso. apply Hout. exact Hstatus. }
  destruct (pollForUpdate_run h this w) as (Hreplies & Hout & _ & _ & Hrejected & _).
  fold r in Hrep, Hreplies, Hout, Hrejected.
  rewrite Hreplies in Hrep. injection Hrep as Hrep. rewrite Hrep in Hrejected.
  destruct (Hrejected Hfailed) as (Hfields & Hdispatched & Hlogged).
  refine (conj Hout (conj Hfields (conj Hdispatched (conj Hlogged _)))).
  intros Hnone.
  destruct (getAppVersion_cached_or_fetched H h w this) as [Hg Hmatch].
  fold g in Hg, Hmatch. rewrite Hnone in Hmatch.
  destruct Hmatch as (Hsame & _ & Hgreplies & Hgout).
  split; [ | split; [ | split ] ].
  - rewrite Hgreplies, Hrep. reflexivity.
  - rewrite Hgout, Hrep. unfold settle. rewrite Hfailed. reflexivity.
  - rewrite Hsame, getVersion_run. reflexivity.
  - exact Hg.
Qed.

(** C1.  Take any number of polls in a row whose fetches all succeed, and
    let [fetched] be the identifiers they fetch, in order.  From a state
    without a stored version, the first poll stores the first identifier
    and signals nothing, and the actions dispatched afterwards are, in
    order, one [new_version] carrying the stored and the fetched identifier
    for each later poll whose identifier differs from the stored one; the
    stored version stays the first identifier throughout.  From a state
    with a stored version, every poll is such a later poll.  The other
    fields are never touched. *)
Theorem pollForUpdate_signals_divergence :
  forall (H : Type) (h : host H) (n : nat) (w : H) (this : WebPlatform),
    let r := exec h (polls n) this w in
    let fetched := map (fun rep => trim (body rep)) (replies (trace r)) in
    forallb (fun rep => negb (failed rep)) (replies (trace r)) = true ->
    outcome r = Normal tt
    /\ List.length fetched = n
    /\ notificationCount (fields r) = notificationCount this
    /\ errorDidOccur (fields r) = errorDidOccur this
    /\ match runningVersion this with
       | Some stored =>
           runningVersion (fields r) = Some stored
           /\ dispatched (trace r) =
              map (new_version stored)
                  (filter (fun ver => negb (String.eqb stored ver)) fetched)
       | None =>
           match fetched with
           | [] =>
               runningVersion (fields r) = None
               /\ dispatched (trace r) = []
           | first :: later =>
               runningVersion (fields r) = Some first
               /\ dispatched (trace r) =
                  map (new_version first)
                      (filter (fun ver => negb (String.eqb first ver)) later)
           end
       end.
Proof.
  intros H h n. induction n as [ | n IH ]; intros w this; cbv zeta.
  - simpl polls. rewrite exec_ret. unfold outcome, fields, trace. simpl.
    intros _. destruct (runningVersion this); repeat split; reflexivity.
  - simpl polls. rewrite exec_bind. cbv zeta.
    destruct (pollForUpdate_run h this w)
      as (Hreplies & Hout & Hcount & Hflag & _ & Hok).
    set (r1 := exec h pollForUpdate this w) in *.
    set (rep := fst (h Reply (Request (version_request (fst (h Z DateNow w))))
                       (snd (h Z DateNow w)))) in *.
    rewrite Hout.
    specialize (IH (host_state r1) (fields r1)). cbv zeta in IH.
    set (r2 := exec h (polls n) (fields r1) (host_state r1)) in *.
    rewrite !outcome_of, !fields_of, !trace_of.
    rewrite replies_app, dispatched_app, Hreplies. simpl app. simpl map.
    simpl forallb. simpl List.length.
    intros Hall. apply Bool.andb_true_iff in Hall. destruct Hall as [Hrep Hrest].
    apply Bool.negb_true_iff in Hrep.
    destruct (IH Hrest) as (Hout2 & Hlen2 & Hcount2 & Hflag2 & Hlater).
    destruct (Hok Hrep) as (_ & Hfirst).
    split; [ exact Hout2 | ].
    split; [ rewrite Hlen2; reflexivity | ].
    split; [ rewrite Hcount2; exact Hcount | ].
    split; [ rewrite Hflag2; exact Hflag | ].
    destruct (runningVersion this) as [stored | ] eqn:Hstored.
    + destruct Hfirst as [Hsame Hsignal].
      rewrite Hsame, Hstored in Hlater. destruct Hlater as [Hkept Hsignals].
      split; [ exact Hkept | ].
      rewrite Hsignal, Hsignals. simpl filter.
      destruct (String.eqb stored (trim (body rep))); reflexivity.
    + destruct Hfirst as [Hnow Hsilent].
      rewrite Hnow in Hlater. destruct Hlater as [Hkept Hsignals].
      split; [ exact Hkept | ].
      rewrite Hsilent, Hsignals. reflexivity.
Qed.

Lemma pollForUpdate_signals_divergence_witness :
  forallb (fun rep => negb (failed rep))
          (replies (trace (exec scripted (polls 3) fresh scenario))) = true
  /\ runningVersion (fields (exec scripted (polls 3) fresh scenario)) = Some "1.2.3"
  /\ dispatched (trace (exec scripted (polls 3) fresh scenario))
     = [new_version "1.2.3" "1.2.4"].
Proof.
  split; [ reflexivity | ].
  destruct (pollForUpdate_signals_divergence Script scripted 3 scenario fresh eq_refl)
    as (_ & _ & _ & _ & Hscenario).
  exact Hscenario.
Defined.

Lemma fetch_failure_logged_by_poll_surfaced_by_getAppVersion_witness :
  replies (trace (exec scripted pollForUpdate fresh unavailable))
  = [{| err := None; response := {| status := 503 |}; body := "" |}]
  /\ ~ (200 <= 503 < 300)
  /\ outcome (exec scripted pollForUpdate fresh unavailable) = Normal tt
  /\ errors_logged (trace (exec scripted pollForUpdate fresh unavailable))
     = [("Failed to poll for update", StatusError 503)]
  /\ outcome (exec scripted getAppVersion fresh unavailable)
     = Normal (Rejected (StatusError 503)).
Proof.
  assert (Hstatus : ~ (200 <= 503 < 300)) by lia.
  split; [ reflexivity | ]. split; [ exact Hstatus | ].
  destruct (fetch_failure_logged_by_poll_surfaced_by_getAppVersion
              Script scripted unavailable fresh
              {| err := None; response := {| status := 503 |}; body := "" |}
              eq_refl (or_intror Hstatus))
    as (Hout & _ & _ & Hlogged & Hget).
  split; [ exact Hout | ]. split; [ exact Hlogged | ].
  exact (proj1 (proj2 (Hget eq_refl))).
Defined.

(** ** Notifications *)

(** C8.  [displayNotification] creates one silent notification tagged
    "vector", installs on it a click handler and sets a timer of 5000 ms.
    The click handler dispatches [view_room] with the room's id, focuses
    the window and closes that notification, in this order; the timer's
    handler closes that notification.  The timer is set by
    [displayNotification] itself, whatever happens to the click handler. *)
Theorem displayNotification_click_and_timeout :
  forall (H : Type) (h : host H) (w : H) (this : WebPlatform)
         (title msg avatarUrl : string) (room : Room),
    let created :=
      NewNotification title
        {| opt_body := msg; icon := avatarUrl; tag := "vector"; silent := true |} in
    let notification := fst (h _ created w) in
    let r := exec h (displayNotification title msg avatarUrl room) this w in
    outcome r = Normal tt
    /\ fields r = this
    /\ trace r =
       [Ev created notification;
        Ev (SetOnclick notification (OnClick room notification)) tt;
        Ev (SetTimeout (OnTimeout notification) 5000) tt]
    /\ (forall (H' : Type) (h' : host H') (w' : H') (this' : WebPlatform),
           let click := exec h' (invoke (OnClick room notification)) this' w' in
           outcome click = Normal tt
           /\ fields click = this'
           /\ trace click =
              [Ev (DisDispatch (view_room (roomId room))) tt;
               Ev GlobalFocus tt;
               Ev (NotificationClose notification) tt])
    /\ (forall (H' : Type) (h' : host H') (w' : H') (this' : WebPlatform),
           let timeout := exec h' (invoke (OnTimeout notification)) this' w' in
           outcome timeout = Normal tt
           /\ fields timeout = this'
           /\ trace timeout = [Ev (NotificationClose notification) tt]).
Proof.
  intros H h w this title msg avatarUrl room created notification r.
  subst r notification created.
  assert (Hrun :
    exec h (displayNotification title msg avatarUrl room) this w =
    let created :=
      NewNotification title
        {| opt_body := msg; icon := avatarUrl; tag := "vector"; silent := true |} in
    let n := fst (h _ created w) in
    let w1 := snd (h _ created w) in
    let w2 := snd (h _ (SetOnclick n (OnClick room n)) w1) in
    (Normal tt, this,
     [Ev created n; Ev (SetOnclick n (OnClick room n)) tt;
      Ev (SetTimeout (OnTimeout n) 5000) tt],
     snd (h _ (SetTimeout (OnTimeout n) 5000) w2))).
  { unfold exec, displayNotification, bind, call. simpl.
    destruct (h _ _ w) as [n w1]. simpl.
    destruct (h _ _ w1) as [[] w2]. simpl.
    destruct (h _ _ w2) as [[] w3]. reflexivity. }
  rewrite Hrun. cbv zeta.
  split; [ reflexivity | ]. split; [ reflexivity | ]. split; [ reflexivity | ].
  split.
  - intros H' h' w' this'. cbv zeta.
    unfold exec, invoke, bind, call. simpl.
    destruct (h' _ _ w') as [[] w1]. simpl.
    destruct (h' _ _ w1) as [[] w2]. simpl.
    destruct (h' _ _ w2) as [[] w3]. repeat split; reflexivity.
  - intros H' h' w' this'. cbv zeta.
    unfold exec, invoke, call. simpl.
    destruct (h' _ _ w') as [[] w1]. repeat split; reflexivity.
Qed.

(** ** Screen capture *)

(** C7, as stated, fails: in an environment served over https whose
    global object has no window, the error string is returned; and two
    environments with the same scheme get different results. *)
Lemma screenCapture_refused_without_window :
  transport secure_worker = "https:"
  /\ screenCaptureErrorString (global_of secure_worker) = Some https_required
  /\ transport secure_page = transport secure_worker
  /\ screenCaptureErrorString (global_of secure_page)
     <> screenCaptureErrorString (global_of secure_worker).
Proof.
  repeat split; try reflexivity. discriminate.
Qed.

(** C7 (amended).  [screenCaptureErrorString] returns no error exactly
    when the global object has a window whose location protocol is
    "https:", and the fixed error string exactly when there is no window
    or the protocol of its location is another one; so the result is a
    function of the presence of a window and of the scheme. *)
Theorem screenCaptureErrorString_rule :
  forall global : Global,
    (screenCaptureErrorString global = None
     <-> exists w, window global = Some w /\ protocol (location w) = "https:")
    /\ (screenCaptureErrorString global = Some https_required
        <-> window global = None
            \/ exists w, window global = Some w /\ protocol (location w) <> "https:")
    /\ (forall env : Environment,
           global = global_of env ->
           screenCaptureErrorString global =
           if has_window env && String.eqb (transport env) "https:"
           then None else Some https_required).
Proof.
  intros [[w | ]]; unfold screenCaptureErrorString; simpl.
  - destruct (String.eqb_spec (protocol (location w)) "https:") as [Hs | Hs]; simpl.
    + split; [ | split ].
      * split; [ intros _; exists w; split; [ reflexivity | exact Hs ] | reflexivity ].
      * split; [ discriminate | ].
        intros [Habs | (w' & Hw & Hne)]; [ discriminate | ].
        injection Hw as <-. contradiction.
      * intros [scheme [ | ]] Heq; unfold global_of in Heq; simpl in Heq;
          [ | discriminate ].
        injection Heq as ->. simpl in *. subst scheme. reflexivity.
    + split; [ | split ].
      * split; [ discriminate | ].
        intros (w' & Hw & He). injection Hw as <-. contradiction.
      * split; [ | reflexivity ].
        intros _. right. exists w. split; [ reflexivity | exact Hs ].
      * intros [scheme [ | ]] Heq; unfold global_of in Heq; simpl in Heq;
          [ | discriminate ].
        injection Heq as ->. simpl in *.
        destruct (String.eqb_spec scheme "https:"); [ contradiction | reflexivity ].
  - split; [ | split ].
    + split; [ discriminate | intros (w' & Hw & _); discriminate ].
    + split; [ intros _; left; reflexivity | reflexivity ].
    + intros [scheme [ | ]] Heq; unfold global_of in Heq; simpl in Heq;
        [ discriminate | reflexivity ].
Qed.

Lemma screenCaptureErrorString_rule_witness :
  screenCaptureErrorString (global_of secure_page) = None.
Proof.
  exact (proj2 (proj2 (screenCaptureErrorString_rule (global_of secure_page)))
           secure_page eq_refl).
Defined.

(** C10.  Without a window in the global object the fixed error string
    is returned whatever the scheme, while with a window the scheme
    decides; so for one and the same scheme the presence of the window
    changes the result. *)
Theorem screenCapture_needs_window :
  screenCaptureErrorString {| window := None |} = Some https_required
  /\ (forall scheme : string,
         screenCaptureErrorString
           (global_of {| transport := scheme; has_window := false |})
         = Some https_required)
  /\ screenCaptureErrorString
       (global_of {| transport := "https:"; has_window := true |})
     <> screenCaptureErrorString
          (global_of {| transport := "https:"; has_window := false |}).
Proof.
  split; [ reflexivity | ]. split; [ reflexivity | discriminate ].
Qed.

(** ** Polls that may fail *)

Lemma errors_logged_app (t t' : list event) :
  errors_logged (t ++ t') = (errors_logged t ++ errors_logged t')%list.
Proof.
  induction t as [ | [X e a] t IH ]; simpl; [ reflexivity | ].
  destruct e; simpl; rewrite IH; reflexivity.
Qed.

Lemma badges_app (t t' : list event) :
  badges (t ++ t') = (badges t ++ badges t')%list.
Proof.
  induction t as [ | [X e a] t IH ]; simpl; [ reflexivity | ].
  destruct e; simpl; rewrite IH; reflexivity.
Qed.

Lemma requests_app (t t' : list event) :
  requests (t ++ t') = (requests t ++ requests t')%list.
Proof.
  induction t as [ | [X e a] t IH ]; simpl; [ reflexivity | ].
  destruct e; simpl; rewrite IH; reflexivity.
Qed.

(** Any number of polls in a row, failing or not, on any host.  No poll
    throws; each failed fetch is logged once and otherwise skipped: the
    version stored from a state without one is the first identifier that
    was fetched successfully, and the signals are those of the successful
    fetches alone. *)
Theorem polls_skip_failed_fetches :
  forall (H : Type) (h : host H) (n : nat) (w : H) (this : WebPlatform),
    let r := exec h (polls n) this w in
    let fetched :=
      map (fun rep => trim (body rep))
          (filter (fun rep => negb (failed rep)) (replies (trace r))) in
    outcome r = Normal tt
    /\ List.length (replies (trace r)) = n
    /\ errors_logged (trace r) =
       map (fun rep => ("Failed to poll for update", rejection rep))
           (filter failed (replies (trace r)))
    /\ notificationCount (fields r) = notificationCount this
    /\ errorDidOccur (fields r) = errorDidOccur this
    /\ match runningVersion this with
       | Some stored =>
           runningVersion (fields r) = Some stored
           /\ dispatched (trace r) =
              map (new_version stored)
                  (filter (fun ver => negb (String.eqb stored ver)) fetched)
       | None =>
           match fetched with
           | [] =>
               runningVersion (fields r) = None
               /\ dispatched (trace r) = []
           | first :: later =>
               runningVersion (fields r) = Some first
               /\ dispatched (trace r) =
                  map (new_version first)
                      (filter (fun ver => negb (String.eqb first ver)) later)
           end
       end.
Proof.
  intros H h n. induction n as [ | n IH ]; intros w this; cbv zeta.
  - simpl polls. rewrite exec_ret. unfold outcome, fields, trace. simpl.
    destruct (runningVersion this); repeat split; reflexivity.
  - simpl polls. rewrite exec_bind. cbv zeta.
    destruct (pollForUpdate_run h this w)
      as (Hreplies & Hout & Hcount & Hflag & Hbad & Hok).
    set (r1 := exec h pollForUpdate this w) in *.
    set (rep := fst (h Reply (Request (version_request (fst (h Z DateNow w))))
                       (snd (h Z DateNow w)))) in *.
    rewrite Hout.
    specialize (IH (host_state r1) (fields r1)). cbv zeta in IH.
    set (r2 := exec h (polls n) (fields r1) (host_state r1)) in *.
    rewrite !outcome_of, !fields_of, !trace_of.
    rewrite replies_app, dispatched_app, errors_logged_app, Hreplies.
    simpl app. simpl filter. simpl List.length.
    destruct IH as (Hout2 & Hlen2 & Hlog2 & Hcount2 & Hflag2 & Hlater).
    split; [ exact Hout2 | ].
    split; [ rewrite Hlen2; reflexivity | ].
    destruct (failed rep) eqn:Hfailed; simpl negb; cbv iota.
    + destruct (Hbad eq_refl) as (Hsame & Hsilent & Hlogged).
      rewrite Hsame in *.
      split; [ rewrite Hlogged, Hlog2; reflexivity | ].
      split; [ exact Hcount2 | ]. split; [ exact Hflag2 | ].
      rewrite Hsilent. exact Hlater.
    + destruct (Hok eq_refl) as (Hlogged & Hfirst).
      split; [ rewrite Hlogged, Hlog2; reflexivity | ].
      split; [ rewrite Hcount2; exact Hcount | ].
      split; [ rewrite Hflag2; exact Hflag | ].
      simpl map.
      destruct (runningVersion this) as [stored | ] eqn:Hstored.
      * destruct Hfirst as [Hsame Hsignal].
        rewrite Hsame, Hstored in Hlater. destruct Hlater as [Hkept Hsignals].
        split; [ exact Hkept | ].
        rewrite Hsignal, Hsignals. simpl filter.
        destruct (String.eqb stored (trim (body rep))); reflexivity.
      * destruct Hfirst as [Hnow Hsilent].
        rewrite Hnow in Hlater. destruct Hlater as [Hkept Hsignals].
        split; [ exact Hkept | ].
        rewrite Hsilent, Hsignals. reflexivity.
Qed.

(** ** White space around the fetched identifier *)

Lemma trim_start_white (s : string) :
  all_white s = true -> trim_start s = "".
Proof.
  induction s as [ | c s IH ]; simpl; [ reflexivity | ].
  intros Hs. apply Bool.andb_true_iff in Hs. destruct Hs as [Hc Hs].
  rewrite Hc. apply IH. exact Hs.
Qed.

Lemma trim_start_app_white (l s : string) :
  all_white l = true -> trim_start (l ++ s) = trim_start s.
Proof.
  induction l as [ | c l IH ]; simpl; [ reflexivity | ].
  intros Hl. apply Bool.andb_true_iff in Hl. destruct Hl as [Hc Hl].
  rewrite Hc. apply IH. exact Hl.
Qed.

Lemma trim_start_app_kept (s r : string) :
  all_white s = false -> trim_start (s ++ r) = trim_start s ++ r.
Proof.
  induction s as [ | c s IH ]; simpl; [ discriminate | ].
  destruct (is_white c); simpl; [ exact IH | reflexivity ].
Qed.

Lemma trim_end_white (r : string) :
  all_white r = true -> trim_end r = "".
Proof.
  induction r as [ | c r IH ]; simpl; [ reflexivity | ].
  intros Hr. apply Bool.andb_true_iff in Hr. destruct Hr as [Hc Hr].
  rewrite (IH Hr), Hc. reflexivity.
Qed.

Lemma trim_end_app_white (s r : string) :
  all_white r = true -> trim_end (s ++ r) = trim_end s.
Proof.
  intros Hr. induction s as [ | c s IH ]; simpl.
  - apply trim_end_white. exact Hr.
  - rewrite IH. reflexivity.
Qed.

(** White space around a string does not show after trimming. *)
Lemma trim_padded (l s r : string) :
  all_white l = true -> all_white r = true ->
  trim (l ++ s ++ r) = trim s.
Proof.
  intros Hl Hr. unfold trim. rewrite (trim_start_app_white l (s ++ r) Hl).
  destruct (all_white s) eqn:Hs.
  - rewrite (trim_start_white s Hs).
    rewrite (trim_start_app_white s r Hs), (trim_start_white r Hr). reflexivity.
  - rewrite (trim_start_app_kept s r Hs). apply trim_end_app_white. exact Hr.
Qed.

Lemma trim_white (s : string) :
  all_white s = true -> trim s = "".
Proof.
  intros Hs. unfold trim. rewrite (trim_start_white s Hs). reflexivity.
Qed.

(** ** The version capability, continued *)

Section VersionUse.

Context {H : Type} (h : host H).

Lemma getAppVersion_run (this : WebPlatform) (w : H) :
  exec h getAppVersion this w =
  match runningVersion this with
  | Some version => (Normal (Fulfilled version), this, [], w)
  | None => exec h _getVersion this w
  end.
Proof.
  unfold exec, getAppVersion, bind, get_this. simpl.
  destruct (runningVersion this) as [version | ]; reflexivity.
Qed.

End VersionUse.

(** After a poll whose fetch succeeded, [getAppVersion] issues no request
    and yields a fulfilled promise: with the version that was stored
    before the poll when there was one (also when the poll has just
    fetched a different one), and with the identifier the poll fetched
    otherwise. *)
Theorem getAppVersion_after_successful_poll :
  forall (H : Type) (h : host H) (w : H) (this : WebPlatform) (rep : Reply),
    let r := exec h pollForUpdate this w in
    replies (trace r) = [rep] ->
    failed rep = false ->
    let g := exec h getAppVersion (fields r) (host_state r) in
    trace g = []
    /\ fields g = fields r
    /\ outcome g =
       Normal (Fulfilled match runningVersion this with
                         | Some stored => stored
                         | None => trim (body rep)
                         end).
Proof.
  intros H h w this rep r Hrep Hfailed g.
  destruct (pollForUpdate_run h this w) as (Hreplies & _ & _ & _ & _ & Hok).
  fold r in Hreplies, Hok. rewrite Hreplies in Hrep. injection Hrep as Hrep.
  rewrite Hrep in Hok. destruct (Hok Hfailed) as (_ & Hstored).
  subst g. rewrite getAppVersion_run.
  destruct (runningVersion this) as [stored | ] eqn:Hthis.
  - destruct Hstored as [Hsame _]. rewrite Hsame, Hthis. repeat split; reflexivity.
  - destruct Hstored as [Hnow _]. rewrite Hnow. repeat split; reflexivity.
Qed.

Lemma getAppVersion_after_successful_poll_witness :
  replies (trace (exec scripted pollForUpdate fresh upgraded)) = [ok "1.2.3"]
  /\ failed (ok "1.2.3") = false
  /\ trace (exec scripted getAppVersion
              (fields (exec scripted pollForUpdate fresh upgraded))
              (host_state (exec scripted pollForUpdate fresh upgraded))) = []
  /\ outcome (exec scripted getAppVersion
                (fields (exec scripted pollForUpdate fresh upgraded))
                (host_state (exec scripted pollForUpdate fresh upgraded)))
     = Normal (Fulfilled "1.2.3").
Proof.
  split; [ reflexivity | ]. split; [ reflexivity | ].
  destruct (getAppVersion_after_successful_poll Script scripted upgraded fresh
              (ok "1.2.3") eq_refl eq_refl) as (Htrace & _ & Hout).
  split; [ exact Htrace | exact Hout ].
Defined.

(** A version that [getAppVersion] has fetched is not the baseline of the
    polls: from a state without a stored version, a poll that follows a
    [getAppVersion] call stores what the poll itself fetches and signals
    nothing, whatever the call before had fetched. *)
Theorem poll_after_getAppVersion_is_first_poll :
  forall (H : Type) (h : host H) (w : H) (this : WebPlatform) (rep : Reply),
    runningVersion this = None ->
    let g := exec h getAppVersion this w in
    let r := exec h pollForUpdate (fields g) (host_state g) in
    replies (trace r) = [rep] ->
    failed rep = false ->
    List.length (requests (trace g)) = 1%nat
    /\ runningVersion (fields g) = None
    /\ runningVersion (fields r) = Some (trim (body rep))
    /\ dispatched (trace g ++ trace r) = [].
Proof.
  intros H h w this rep Hnone g r Hrep Hfailed.
  assert (Hg : g = exec h _getVersion this w).
  { subst g. rewrite getAppVersion_run, Hnone. reflexivity. }
  assert (Hfields : fields g = this).
  { rewrite Hg, getVersion_run. reflexivity. }
  destruct (pollForUpdate_run h (fields g) (host_state g))
    as (Hreplies & _ & _ & _ & _ & Hok).
  fold r in Hreplies, Hok. rewrite Hreplies in Hrep. injection Hrep as Hrep.
  rewrite Hrep in Hok. destruct (Hok Hfailed) as (_ & Hstored).
  rewrite Hfields, Hnone in Hstored. destruct Hstored as [Hnow Hsilent].
  split; [ rewrite Hg, getVersion_run; reflexivity | ].
  split; [ rewrite Hfields; exact Hnone | ].
  split; [ exact Hnow | ].
  rewrite dispatched_app, Hsilent, Hg, getVersion_run. reflexivity.
Qed.

Lemma poll_after_getAppVersion_is_first_poll_witness :
  runningVersion fresh = None
  /\ outcome (exec scripted getAppVersion fresh upgraded) = Normal (Fulfilled "1.2.3")
  /\ runningVersion
       (fields (exec scripted pollForUpdate
                  (fields (exec scripted getAppVersion fresh upgraded))
                  (host_state (exec scripted getAppVersion fresh upgraded))))
     = Some "1.2.4"
  /\ dispatched
       (trace (exec scripted getAppVersion fresh upgraded) ++
        trace (exec scripted pollForUpdate
                 (fields (exec scripted getAppVersion fresh upgraded))
                 (host_state (exec scripted getAppVersion fresh upgraded))))
     = [].
Proof.
  split; [ reflexivity | ]. split; [ reflexivity | ].
  destruct (poll_after_getAppVersion_is_first_poll Script scripted upgraded fresh
              (ok "1.2.4") eq_refl eq_refl eq_refl) as (_ & _ & Hnow & Hsilent).
  split; [ exact Hnow | exact Hsilent ].
Defined.

(** A successful reply whose body is white space only makes the first
    poll store the empty string, which counts as a stored version:
    [getAppVersion] then yields it without a request, and a later poll
    that fetches anything else signals an update from the empty
    version. *)
Theorem blank_body_is_stored_as_version :
  forall (H : Type) (h : host H) (w : H) (this : WebPlatform) (rep : Reply),
    runningVersion this = None ->
    let r := exec h pollForUpdate this w in
    replies (trace r) = [rep] ->
    failed rep = false ->
    all_white (body rep) = true ->
    runningVersion (fields r) = Some ""
    /\ dispatched (trace r) = []
    /\ (forall w' : H,
           trace (exec h getAppVersion (fields r) w') = []
           /\ outcome (exec h getAppVersion (fields r) w') = Normal (Fulfilled ""))
    /\ (forall (w' : H) (rep' : Reply),
           let r' := exec h pollForUpdate (fields r) w' in
           replies (trace r') = [rep'] ->
           failed rep' = false ->
           trim (body rep') <> "" ->
           dispatched (trace r') = [new_version "" (trim (body rep'))]
           /\ runningVersion (fields r') = Some "").
Proof.
  intros H h w this rep Hnone r Hrep Hfailed Hwhite.
  destruct (pollForUpdate_run h this w) as (Hreplies & _ & _ & _ & _ & Hok).
  fold r in Hreplies, Hok. rewrite Hreplies in Hrep. injection Hrep as Hrep.
  rewrite Hrep in Hok. destruct (Hok Hfailed) as (_ & Hstored).
  rewrite Hnone, (trim_white _ Hwhite) in Hstored.
  destruct Hstored as [Hnow Hsilent].
  split; [ exact Hnow | ]. split; [ exact Hsilent | ]. split.
  - intros w'. rewrite getAppVersion_run, Hnow. split; reflexivity.
  - intros w' rep' r' Hrep' Hfailed' Hother.
    destruct (pollForUpdate_run h (fields r) w') as (Hreplies' & _ & _ & _ & _ & Hok').
    fold r' in Hreplies', Hok'. rewrite Hreplies' in Hrep'. injection Hrep' as Hrep'.
    rewrite Hrep' in Hok'. destruct (Hok' Hfailed') as (_ & Hstored').
    rewrite Hnow in Hstored'. destruct Hstored' as [Hsame Hsignal].
    split.
    + rewrite Hsignal.
      destruct (String.eqb_spec "" (trim (body rep'))) as [Heq | Hne];
        [ symmetry in Heq; contradiction | reflexivity ].
    + rewrite Hsame. exact Hnow.
Qed.

Lemma blank_body_is_stored_as_version_witness :
  runningVersion fresh = None
  /\ replies (trace (exec scripted pollForUpdate fresh blank)) = [ok "  "]
  /\ all_white "  " = true
  /\ runningVersion (fields (exec scripted pollForUpdate fresh blank)) = Some ""
  /\ dispatched
       (trace (exec scripted pollForUpdate
                 (fields (exec scripted pollForUpdate fresh blank))
                 (host_state (exec scripted pollForUpdate fresh blank))))
     = [new_version "" "1.2.3"].
Proof.
  split; [ reflexivity | ]. split; [ reflexivity | ]. split; [ reflexivity | ].
  destruct (blank_body_is_stored_as_version Script scripted blank fresh (ok "  ")
              eq_refl eq_refl eq_refl eq_refl) as (Hnow & _ & _ & Hlater).
  split; [ exact Hnow | ].
  refine (proj1 (Hlater (host_state (exec scripted pollForUpdate fresh blank))
                   (ok "1.2.3") eq_refl eq_refl _)).
  discriminate.
Defined.

(** White space around the body of a reply never causes a signal: when
    the stored version is the trimmed form of [version], a successful
    reply whose body is [version] between any white space is taken as the
    same version. *)
Theorem padding_of_body_is_no_new_version :
  forall (H : Type) (h : host H) (w : H) (this : WebPlatform) (rep : Reply)
         (l version r' : string),
    let r := exec h pollForUpdate this w in
    runningVersion this = Some (trim version) ->
    replies (trace r) = [rep] ->
    failed rep = false ->
    body rep = l ++ version ++ r' ->
    all_white l = true ->
    all_white r' = true ->
    dispatched (trace r) = [] /\ fields r = this.
Proof.
  intros H h w this rep l version r' r Hstored Hrep Hfailed Hbody Hl Hr.
  destruct (pollForUpdate_run h this w) as (Hreplies & _ & _ & _ & _ & Hok).
  fold r in Hreplies, Hok. rewrite Hreplies in Hrep. injection Hrep as Hrep.
  rewrite Hrep in Hok. destruct (Hok Hfailed) as (_ & Hcase).
  rewrite Hstored, Hbody, (trim_padded l version r' Hl Hr) in Hcase.
  rewrite String.eqb_refl in Hcase. destruct Hcase as [Hsame Hsilent].
  split; [ exact Hsilent | exact Hsame ].
Qed.

Lemma padding_of_body_is_no_new_version_witness :
  runningVersion running = Some (trim "1.2.3")
  /\ replies (trace (exec scripted pollForUpdate running padded)) = [ok "  1.2.3 "]
  /\ body (ok "  1.2.3 ") = "  " ++ "1.2.3" ++ " "
  /\ dispatched (trace (exec scripted pollForUpdate running padded)) = [].
Proof.
  split; [ reflexivity | ]. split; [ reflexivity | ]. split; [ reflexivity | ].
  exact (proj1 (padding_of_body_is_no_new_version Script scripted padded running
                  (ok "  1.2.3 ") "  " "1.2.3" " "
                  eq_refl eq_refl eq_refl eq_refl eq_refl eq_refl)).
Defined.

(** ** Construction *)


(** ** Sequences of setter calls *)

Lemma warnings_app (t t' : list event) :
  warnings (t ++ t') = (warnings t ++ warnings t')%list.
Proof.
  induction t as [ | [X e a] t IH ]; simpl; [ reflexivity | ].
  destruct e; simpl; rewrite IH; reflexivity.
Qed.

Section Setters.

Context {H : Type} (h : host H).

(** The render step calls nothing but the renderer and the console. *)
Lemma updateFavicon_frame (this : WebPlatform) (w : H) :
  requests (trace (exec h _updateFavicon this w)) = []
  /\ dispatched (trace (exec h _updateFavicon this w)) = []
  /\ errors_logged (trace (exec h _updateFavicon this w)) = [].
Proof.
  rewrite updateFavicon_cases. cbv zeta.
  match goal with |- context [fst ?x] => destruct (fst x) end;
    repeat split; reflexivity.
Qed.

(** One setter call: the fields afterwards are those of the plain
    assignment; either nothing was rendered and nothing changed, or the
    one badge call made is the one for the fields afterwards. *)
Lemma apply_op_run (op : BadgeOp) (this : WebPlatform) (w : H) :
  let r := exec h (apply_op op) this w in
  outcome r = Normal tt
  /\ fields r =
     match op with
     | SetCount count =>
         {| notificationCount := count;
            errorDidOccur := errorDidOccur this;
            runningVersion := runningVersion this |}
     | SetError flag =>
         {| notificationCount := notificationCount this;
            errorDidOccur := flag;
            runningVersion := runningVersion this |}
     end
  /\ (badges (trace r) = [] /\ fields r = this
      \/ badges (trace r) =
         [(if errorDidOccur (fields r) then or_glyph (notificationCount (fields r))
           else BadgeNumber (notificationCount (fields r)),
           {| bgColor := if errorDidOccur (fields r) then "#f00" else "#d00" |})])
  /\ requests (trace r) = []
  /\ dispatched (trace r) = []
  /\ errors_logged (trace r) = [].
Proof.
  cbv zeta. destruct op as [count | flag]; simpl apply_op.
  - destruct (strict_eq (notificationCount this) count) eqn:Hcmp.
    + rewrite setNotificationCount_same by assumption.
      rewrite outcome_of, fields_of, trace_of.
      assert (Hsame : notificationCount this = count).
      { destruct (notificationCount this) as [x | ], count as [y | ];
          try discriminate. simpl in Hcmp. apply Z.eqb_eq in Hcmp.
        rewrite Hcmp. reflexivity. }
      split; [ reflexivity | ]. split.
      { rewrite <- Hsame. destruct this; reflexivity. }
      split; [ left; split; reflexivity | repeat split; reflexivity ].
    + rewrite setNotificationCount_changed by assumption.
      destruct (updateFavicon_outcome h
                  {| notificationCount := count;
                     errorDidOccur := errorDidOccur this;
                     runningVersion := runningVersion this |} w) as [Hout Hfields].
      split; [ exact Hout | ]. split; [ exact Hfields | ].
      split; [ right; rewrite Hfields, updateFavicon_badges; reflexivity | ].
      apply updateFavicon_frame.
  - destruct (Bool.bool_dec (errorDidOccur this) flag) as [Heq | Hne].
    + rewrite setErrorStatus_same by assumption.
      rewrite outcome_of, fields_of, trace_of.
      split; [ reflexivity | ]. split.
      { rewrite <- Heq. destruct this; reflexivity. }
      split; [ left; split; reflexivity | repeat split; reflexivity ].
    + rewrite setErrorStatus_changed by assumption.
      destruct (updateFavicon_outcome h
                  {| notificationCount := notificationCount this;
                     errorDidOccur := flag;
                     runningVersion := runningVersion this |} w) as [Hout Hfields].
      split; [ exact Hout | ]. split; [ exact Hfields | ].
      split; [ right; rewrite Hfields, updateFavicon_badges; reflexivity | ].
      apply updateFavicon_frame.
Qed.

End Setters.

(** Any sequence of setter calls, on any host, also one whose renderer
    throws: no call throws, and the fields at the end are those of the
    plain assignments in order, so the last count and the last flag passed
    are the stored ones and [runningVersion] is untouched.  The setters
    issue no request, dispatch nothing and log no error. *)
Theorem setters_store_like_assignments :
  forall (H : Type) (h : host H) (ops : list BadgeOp) (w : H) (this : WebPlatform),
    let r := exec h (apply_all ops) this w in
    outcome r = Normal tt
    /\ fields r =
       fold_left
         (fun (s : WebPlatform) (op : BadgeOp) =>
            match op with
            | SetCount count =>
                {| notificationCount := count;
                   errorDidOccur := errorDidOccur s;
                   runningVersion := runningVersion s |}
            | SetError flag =>
                {| notificationCount := notificationCount s;
                   errorDidOccur := flag;
                   runningVersion := runningVersion s |}
            end)
         ops this
    /\ runningVersion (fields r) = runningVersion this
    /\ requests (trace r) = []
    /\ dispatched (trace r) = []
    /\ errors_logged (trace r) = [].
Proof.
  intros H h ops. induction ops as [ | op rest IH ]; intros w this; cbv zeta.
  - simpl apply_all. rewrite exec_ret. repeat split; reflexivity.
  - simpl apply_all. rewrite exec_bind. cbv zeta.
    destruct (apply_op_run h op this w) as (Hout & Hfields & _ & Hreq & Hdis & Hlog).
    rewrite Hout. rewrite !outcome_of, !fields_of, !trace_of.
    specialize (IH (host_state (exec h (apply_op op) this w))
                   (fields (exec h (apply_op op) this w))).
    cbv zeta in IH. destruct IH as (Hout2 & Hfields2 & Hversion2 & Hreq2 & Hdis2 & Hlog2).
    split; [ exact Hout2 | ].
    split; [ rewrite Hfields2, Hfields; reflexivity | ].
    split; [ rewrite Hversion2, Hfields; destruct op; reflexivity | ].
    rewrite requests_app, dispatched_app, errors_logged_app.
    rewrite Hreq, Hdis, Hlog, Hreq2, Hdis2, Hlog2. repeat split; reflexivity.
Qed.

(** From construction on, through any sequence of setter calls and on any
    host, the last badge call made is the one for the current fields: the
    badge last asked for is never that of an older count or flag.  There
    is at most one badge call per setter call. *)
Theorem last_badge_call_shows_current_fields :
  forall (H : Type) (h : host H) (ops : list BadgeOp) (w : H) (this : WebPlatform),
    let r := exec h (constructor ;; apply_all ops) this w in
    (exists earlier : list (BadgeContent * BadgeOptions),
        badges (trace r) =
        (earlier ++
         [(if errorDidOccur (fields r) then or_glyph (notificationCount (fields r))
           else BadgeNumber (notificationCount (fields r)),
           {| bgColor := if errorDidOccur (fields r) then "#f00" else "#d00" |})])%list)
    /\ (List.length (badges (trace r)) <= 1 + List.length ops)%nat.
Proof.
  intros H h ops.
  assert (Hseq : forall (w : H) (this : WebPlatform),
             let r := exec h (apply_all ops) this w in
             (badges (trace r) = [] /\ fields r = this
              \/ exists earlier : list (BadgeContent * BadgeOptions),
                  badges (trace r) =
                  (earlier ++
                   [(if errorDidOccur (fields r)
                     then or_glyph (notificationCount (fields r))
                     else BadgeNumber (notificationCount (fields r)),
                     {| bgColor := if errorDidOccur (fields r)
                                   then "#f00" else "#d00" |})])%list)
             /\ (List.length (badges (trace r)) <= List.length ops)%nat).
  { induction ops as [ | op rest IH ]; intros w this; cbv zeta.
    - simpl apply_all. rewrite exec_ret. rewrite fields_of, trace_of.
      split; [ left; split; reflexivity | apply le_n ].
    - simpl apply_all. rewrite exec_bind. cbv zeta.
      destruct (apply_op_run h op this w) as (Hout & _ & Hone & _).
      rewrite Hout. rewrite !fields_of, !trace_of, badges_app.
      set (r1 := exec h (apply_op op) this w) in *.
      specialize (IH (host_state r1) (fields r1)). cbv zeta in IH.
      set (r2 := exec h (apply_all rest) (fields r1) (host_state r1)) in *.
      destruct IH as [Hrest Hlen]. split.
      + destruct Hrest as [[Hnone Hsame] | [earlier Hlast]].
        * rewrite Hnone, app_nil_r, Hsame.
          destruct Hone as [[Hnone1 Hsame1] | Hshown].
          -- left. split; [ exact Hnone1 | exact Hsame1 ].
          -- right. exists []. exact Hshown.
        * right. exists (badges (trace r1) ++ earlier)%list.
          rewrite Hlast, app_assoc. reflexivity.
      + rewrite length_app. simpl List.length.
        assert (Hle : (List.length (badges (trace r1)) <= 1)%nat).
        { destruct Hone as [[-> _] | ->]; simpl; lia. }
        lia. }
  intros w this. cbv zeta. rewrite exec_bind. cbv zeta.
  destruct (constructor_run h this w) as (Hout & _ & Hlen).
  rewrite Hout. rewrite !fields_of, !trace_of, badges_app.
  set (c := exec h constructor this w) in *.
  destruct (Hseq (host_state c) (fields c)) as [Hrest Hle]. cbv zeta in Hrest, Hle.
  split.
  - destruct Hrest as [[Hnone Hsame] | [earlier Hlast]].
    + exists []. rewrite Hnone, app_nil_r, Hsame. simpl app.
      assert (Hc : c = exec h _updateFavicon
                         {| notificationCount := notificationCount this;
                            errorDidOccur := errorDidOccur this;
                            runningVersion := None |} w) by reflexivity.
      rewrite Hc, updateFavicon_badges, (proj2 (updateFavicon_outcome h _ w)).
      reflexivity.
    + exists (badges (trace c) ++ earlier)%list.
      rewrite Hlast, app_assoc. reflexivity.
  - rewrite length_app, Hlen. lia.
Qed.

(** The render step for every number: under the error flag the glyph
    stands in exactly for the falsy counts, zero and [NaN], and every
    other count, negative ones too, is shown as it is on "#f00"; without
    the flag every count, also zero and [NaN], is passed on as it is on
    "#d00". *)
Theorem badge_render_rule_all_numbers :
  forall (H : Type) (h : host H) (w : H) (count : number) (flag : bool)
         (version : option string),
    exists (content : BadgeContent) (color : string),
      badges (trace (exec h _updateFavicon
                       {| notificationCount := count;
                          errorDidOccur := flag;
                          runningVersion := version |} w))
      = [(content, {| bgColor := color |})]
      /\ (color = "#f00" <-> flag = true)
      /\ (color = "#d00" <-> flag = false)
      /\ (content = BadgeText times_glyph
          <-> flag = true /\ (count = Num 0 \/ count = NaN))
      /\ (content = BadgeNumber count
          <-> flag = false \/ (count <> Num 0 /\ count <> NaN)).
Proof.
  intros H h w count flag version.
  rewrite updateFavicon_badges. simpl.
  destruct flag.
  - exists (or_glyph count), "#f00". split; [ reflexivity | ].
    split; [ split; reflexivity | ].
    split; [ split; discriminate | ].
    unfold or_glyph, truthy. destruct count as [[ | p | p] | ]; simpl.
    + split; split; try reflexivity; try discriminate.
      * intros _. split; [ reflexivity | left; reflexivity ].
      * intros [Habs | [Habs _]]; [ discriminate | contradiction ].
    + split; split; try reflexivity; try discriminate.
      * intros [_ [Habs | Habs]]; discriminate.
      * intros _. right. split; discriminate.
    + split; split; try reflexivity; try discriminate.
      * intros [_ [Habs | Habs]]; discriminate.
      * intros _. right. split; discriminate.
    + split; split; try reflexivity; try discriminate.
      * intros _. split; [ reflexivity | right; reflexivity ].
      * intros [Habs | [_ Habs]]; [ discriminate | contradiction ].
  - exists (BadgeNumber count), "#d00". split; [ reflexivity | ].
    split; [ split; discriminate | ].
    split; [ split; reflexivity | ].
    split; split; try reflexivity; try discriminate.
    + intros [Habs _]. discriminate.
    + intros _. left. reflexivity.
Qed.

(** ** Polls and the clock *)

Lemma times_app (t t' : list event) :
  times (t ++ t') = (times t ++ times t')%list.
Proof.
  induction t as [ | [X e a] t IH ]; simpl; [ reflexivity | ].
  destruct e; simpl; rewrite IH; reflexivity.
Qed.

Section PollFrame.

Context {H : Type} (h : host H).

(** A poll reads the clock once and requests with that time; it calls
    neither the renderer nor [console.warn]. *)
Lemma pollForUpdate_frame (this : WebPlatform) (w : H) :
  let r := exec h pollForUpdate this w in
  requests (trace r) = map version_request (times (trace r))
  /\ List.length (times (trace r)) = 1%nat
  /\ badges (trace r) = []
  /\ warnings (trace r) = [].
Proof.
  cbv zeta.
  unfold exec, pollForUpdate, _getVersion, bind, call, ret. simpl.
  destruct (h Z DateNow w) as [now w1]. simpl.
  destruct (h Reply (Request (version_request now)) w1) as [rep w2]. simpl.
  unfold settle. destruct (failed rep); simpl.
  - unfold poll_rejected, call. simpl.
    destruct (h unit _ w2) as [[] w3]. repeat split; reflexivity.
  - unfold poll_fulfilled, bind, get_this, set_runningVersion, ret, call. simpl.
    destruct (runningVersion this) as [current | ].
    + destruct (String.eqb current (trim (body rep))); simpl.
      * repeat split; reflexivity.
      * destruct (h unit _ w2) as [[] w3]. repeat split; reflexivity.
    + repeat split; reflexivity.
Qed.

End PollFrame.

(** In any run of polls, every request is a GET of "version" whose
    [cachebuster] is the time read from the clock for that poll, one
    request per poll, in order; and no poll calls the badge renderer or
    logs a warning. *)
Theorem polls_request_with_the_time_read :
  forall (H : Type) (h : host H) (n : nat) (w : H) (this : WebPlatform),
    let r := exec h (polls n) this w in
    requests (trace r) =
    map (fun now => {| method := GET; url := "version"; qs := [("cachebuster", now)] |})
        (times (trace r))
    /\ List.length (times (trace r)) = n
    /\ badges (trace r) = []
    /\ warnings (trace r) = [].
Proof.
  intros H h n. induction n as [ | n IH ]; intros w this; cbv zeta.
  - simpl polls. rewrite exec_ret. repeat split; reflexivity.
  - simpl polls. rewrite exec_bind. cbv zeta.
    destruct (pollForUpdate_run h this w) as (_ & Hout & _).
    destruct (pollForUpdate_frame h this w) as (Hreq & Hone & Hbadge & Hwarn).
    rewrite Hout. rewrite !trace_of.
    specialize (IH (host_state (exec h pollForUpdate this w))
                   (fields (exec h pollForUpdate this w))).
    cbv zeta in IH. destruct IH as (Hreq2 & Hlen2 & Hbadge2 & Hwarn2).
    rewrite requests_app, times_app, badges_app, warnings_app, map_app.
    rewrite Hreq, Hreq2, Hbadge, Hbadge2, Hwarn, Hwarn2, length_app, Hone, Hlen2.
    repeat split; reflexivity.
Qed.

(** ** Sequences of notifications *)

Lemma created_app (t t' : list event) :
  created (t ++ t') = (created t ++ created t')%list.
Proof.
  induction t as [ | [X e a] t IH ]; simpl; [ reflexivity | ].
  destruct e; simpl; rewrite IH; reflexivity.
Qed.

Lemma onclicks_app (t t' : list event) :
  onclicks (t ++ t') = (onclicks t ++ onclicks t')%list.
Proof.
  induction t as [ | [X e a] t IH ]; simpl; [ reflexivity | ].
  destruct e; simpl; rewrite IH; reflexivity.
Qed.

Lemma timeouts_app (t t' : list event) :
  timeouts (t ++ t') = (timeouts t ++ timeouts t')%list.
Proof.
  induction t as [ | [X e a] t IH ]; simpl; [ reflexivity | ].
  destruct e; simpl; rewrite IH; reflexivity.
Qed.

Lemma closed_app (t t' : list event) :
  closed (t ++ t') = (closed t ++ closed t')%list.
Proof.
  induction t as [ | [X e a] t IH ]; simpl; [ reflexivity | ].
  destruct e; simpl; rewrite IH; reflexivity.
Qed.

Section Notifications.

Context {H : Type} (h : host H).

Lemma displayNotification_run (title msg avatarUrl : string) (room : Room)
      (this : WebPlatform) (w : H) :
  let opts := {| opt_body := msg; icon := avatarUrl; tag := "vector"; silent := true |} in
  let n := fst (h _ (NewNotification title opts) w) in
  let w1 := snd (h _ (NewNotification title opts) w) in
  let w2 := snd (h _ (SetOnclick n (OnClick room n)) w1) in
  exec h (displayNotification title msg avatarUrl room) this w =
  (Normal tt, this,
   [Ev (NewNotification title opts) n;
    Ev (SetOnclick n (OnClick room n)) tt;
    Ev (SetTimeout (OnTimeout n) 5000) tt],
   snd (h _ (SetTimeout (OnTimeout n) 5000) w2)).
Proof.
  cbv zeta. unfold exec, displayNotification, bind, call. simpl.
  destruct (h _ _ w) as [n w1]. simpl.
  destruct (h _ _ w1) as [[] w2]. simpl.
  destruct (h _ _ w2) as [[] w3]. reflexivity.
Qed.

(** What a handler does when the host invokes it. *)
Lemma invoke_run (cb : Callback) (this : WebPlatform) (w : H) :
  let r := exec h (invoke cb) this w in
  outcome r = Normal tt
  /\ fields r = this
  /\ match cb with
     | OnClick room n =>
         dispatched (trace r) = [view_room (roomId room)] /\ closed (trace r) = [n]
     | OnTimeout n =>
         dispatched (trace r) = [] /\ closed (trace r) = [n]
     end.
Proof.
  cbv zeta. destruct cb as [room n | n]; unfold exec, invoke, bind, call; simpl.
  - destruct (h _ _ w) as [[] w1]. simpl.
    destruct (h _ _ w1) as [[] w2]. simpl.
    destruct (h _ _ w2) as [[] w3]. repeat split; reflexivity.
  - destruct (h _ _ w) as [[] w1]. repeat split; reflexivity.
Qed.

End Notifications.

(** Any sequence of [displayNotification] calls, on any host.  Each call
    creates one silent notification tagged "vector" with its own body and
    icon, and installs on the notification it has just created a click
    handler for its own room and a timer of 5000 ms for that same
    notification.  Showing notifications dispatches nothing and closes
    nothing by itself.  A click handler, when invoked, dispatches its room
    and closes exactly the notification it was installed on; a timer
    closes one of the notifications created. *)
Theorem notifications_get_their_own_handlers :
  forall (H : Type) (h : host H) (l : list Shown) (w : H) (this : WebPlatform),
    let r := exec h (display_all l) this w in
    let refs := map fst (created (trace r)) in
    outcome r = Normal tt
    /\ fields r = this
    /\ map snd (created (trace r)) =
       map (fun s => {| opt_body := shown_msg s; icon := shown_avatarUrl s;
                        tag := "vector"; silent := true |}) l
    /\ onclicks (trace r) =
       map (fun p => (fst p, OnClick (shown_room (snd p)) (fst p))) (combine refs l)
    /\ timeouts (trace r) = map (fun n => (OnTimeout n, 5000)) refs
    /\ dispatched (trace r) = []
    /\ closed (trace r) = []
    /\ (forall (n : NotificationRef) (cb : Callback),
           In (n, cb) (onclicks (trace r)) ->
           forall (H' : Type) (h' : host H') (w' : H') (this' : WebPlatform),
             closed (trace (exec h' (invoke cb) this' w')) = [n]
             /\ exists s, In s l
                  /\ dispatched (trace (exec h' (invoke cb) this' w'))
                     = [view_room (roomId (shown_room s))])
    /\ (forall (cb : Callback) (ms : Z),
           In (cb, ms) (timeouts (trace r)) ->
           ms = 5000
           /\ exists n, In n refs
                /\ forall (H' : Type) (h' : host H') (w' : H') (this' : WebPlatform),
                    closed (trace (exec h' (invoke cb) this' w')) = [n]
                    /\ dispatched (trace (exec h' (invoke cb) this' w')) = []).
Proof.
  intros H h l w this r refs.
  assert (Hshape :
    outcome r = Normal tt
    /\ fields r = this
    /\ map snd (created (trace r)) =
       map (fun s => {| opt_body := shown_msg s; icon := shown_avatarUrl s;
                        tag := "vector"; silent := true |}) l
    /\ onclicks (trace r) =
       map (fun p => (fst p, OnClick (shown_room (snd p)) (fst p)))
           (combine (map fst (created (trace r))) l)
    /\ timeouts (trace r) =
       map (fun n => (OnTimeout n, 5000)) (map fst (created (trace r)))
    /\ dispatched (trace r) = []
    /\ closed (trace r) = []).
  { subst refs r. revert w this.
    induction l as [ | s rest IH ]; intros w this.
    - simpl display_all. rewrite exec_ret. repeat split; reflexivity.
    - simpl display_all. rewrite exec_bind. cbv zeta.
      rewrite displayNotification_run. cbv zeta.
      rewrite (outcome_of (H := H) (Normal tt)), (fields_of (H := H) (Normal tt)).
      match goal with
      | |- context [exec h (display_all rest) this ?w1] =>
          destruct (IH w1 this)
            as (Hout & Hfields & Hopts & Hclicks & Htimers & Hdis & Hclosed);
          set (r2 := exec h (display_all rest) this w1) in *
      end.
      clearbody r2.
      rewrite !outcome_of, !fields_of, !trace_of.
      rewrite created_app, onclicks_app, timeouts_app, dispatched_app, closed_app.
      simpl. rewrite Hopts, Hclicks, Htimers, Hdis, Hclosed.
      repeat split; try reflexivity; assumption. }
  destruct Hshape as (Hout & Hfields & Hopts & Hclicks & Htimers & Hdis & Hclosed).
  fold refs in Hclicks, Htimers.
  repeat (split; [ assumption | ]). split.
  - intros n cb Hin H' h' w' this'. rewrite Hclicks in Hin.
    apply in_map_iff in Hin. destruct Hin as ([n' s] & Heq & Hin).
    simpl in Heq. injection Heq as <- <-.
    destruct (invoke_run h' (OnClick (shown_room s) n') this' w') as (_ & _ & Hd & Hc).
    split; [ exact Hc | ].
    exists s. split; [ | exact Hd ].
    apply in_combine_r in Hin. exact Hin.
  - intros cb ms Hin. rewrite Htimers in Hin.
    apply in_map_iff in Hin. destruct Hin as (n & Heq & Hin).
    injection Heq as <- <-. split; [ reflexivity | ].
    exists n. split; [ exact Hin | ].
    intros H' h' w' this'.
    destruct (invoke_run h' (OnTimeout n) this' w') as (_ & _ & Hd & Hc).
    split; [ exact Hc | exact Hd ].
Qed.

Lemma notifications_get_their_own_handlers_witness :
  In (1%nat, OnClick {| roomId := "!two:example.org" |} 1%nat)
     (onclicks (trace (exec scripted (display_all two_shown) fresh idle)))
  /\ closed (trace (exec scripted
                      (invoke (OnClick {| roomId := "!two:example.org" |} 1%nat))
                      fresh idle)) = [1%nat]
  /\ In (OnTimeout 0%nat, 5000)
        (timeouts (trace (exec scripted (display_all two_shown) fresh idle))).
Proof.
  assert (Hclick : In (1%nat, OnClick {| roomId := "!two:example.org" |} 1%nat)
                      (onclicks (trace (exec scripted (display_all two_shown)
                                          fresh idle))))
    by (right; left; reflexivity).
  assert (Htimer : In (OnTimeout 0%nat, 5000)
                      (timeouts (trace (exec scripted (display_all two_shown)
                                          fresh idle))))
    by (left; reflexivity).
  destruct (notifications_get_their_own_handlers Script scripted two_shown idle fresh)
    as (_ & _ & _ & _ & _ & _ & _ & Hclicks & Htimers).
  split; [ exact Hclick | ]. split; [ | exact Htimer ].
  exact (proj1 (Hclicks _ _ Hclick Script scripted idle fresh)).
Defined.

(** ** Notification support *)

(** [maySendNotifications] throws exactly where [supportsNotifications]
    answers false, so a caller has to ask for support first; where
    notifications are supported it answers true for the permission
    "granted" and false for every other permission string. *)
Theorem maySendNotifications_needs_support :
  forall global : NotificationGlobal,
    (maySendNotifications global = None <-> supportsNotifications global = false)
    /\ (maySendNotifications global = Some true
        <-> exists api, Notification global = Some api /\ permission api = "granted")
    /\ (maySendNotifications global = Some false
        <-> exists api, Notification global = Some api /\ permission api <> "granted").
Proof.
  intros [[api | ]]; unfold maySendNotifications, supportsNotifications; simpl.
  - destruct (String.eqb_spec (permission api) "granted") as [Hg | Hg].
    + split; [ split; discriminate | ]. split.
      * split; [ intros _; exists api; split; [ reflexivity | exact Hg ] | reflexivity ].
      * split; [ discriminate | ].
        intros (api' & Heq & Hne). injection Heq as <-. contradiction.
    + split; [ split; discriminate | ]. split.
      * split; [ discriminate | ].
        intros (api' & Heq & He). injection Heq as <-. contradiction.
      * split; [ intros _; exists api; split; [ reflexivity | exact Hg ] | reflexivity ].
  - split; [ split; reflexivity | ]. split.
    + split; [ discriminate | intros (api' & Heq & _); discriminate ].
    + split; [ discriminate | intros (api' & Heq & _); discriminate ].
Qed.
